(** * jacobfordio: the radial audio-spectrum visualiser

    A shallow embedding of [src/main.js] (the WebGL2 host program) and of the
    fragment shader it loads (the GLSL text that follows it in the source),
    with the properties of the rendering pipeline proved over it.

    Number model.  The host's integers ([canvas.width], [bins], byte
    amplitudes) are [Z], [N], [nat] and [byte]; [window.devicePixelRatio] is
    a non-negative double, held as the rational it stands for, and the one
    product [resizeCanvas] takes of it is rounded as a double is.  The
    shader's [highp float] values are idealised as real numbers: every GLSL
    operation is its exact mathematical counterpart, so rounding is not part
    of the shader's model.

    Event model.  The page is driven by layout changes, audio estimates,
    clicks and animation frames.  [step] takes a click together with the
    settlement of its microphone request; [page_step] takes the two apart,
    as the asynchronous handler does, and counts the frame loops.

    Platform model.  What the source calls but does not define (WebGL2 state
    and commands, texture filtering, the GLSL built-ins, the Web Audio
    analyser) is modelled after the OpenGL ES 3.0, GLSL ES 3.00 and Web Audio
    specifications, in the modules [GL], [GLSL] and in the [gl_*] commands. *)

From Stdlib Require Import Reals Lra Lia ZArith NArith List Bool Strings.Byte.
From Stdlib Require Strings.String Strings.Ascii.
Import ListNotations.
Local Open Scope Z_scope.

(** ** GL texture objects and sampling *)

Module GL.

Local Open Scope R_scope.

Inductive WrapMode := REPEAT | CLAMP_TO_EDGE | MIRRORED_REPEAT.

Inductive FilterMode := NEAREST | LINEAR | NEAREST_MIPMAP_LINEAR.

(** A 2-D texture object with one R8 level: [tex_data] is row-major,
    [tex_width * tex_height] bytes. *)
Record Texture := mkTexture {
  tex_width : Z;
  tex_height : Z;
  tex_wrap_s : WrapMode;
  tex_wrap_t : WrapMode;
  tex_min_filter : FilterMode;
  tex_mag_filter : FilterMode;
  tex_data : list byte
}.

(** State of a texture returned by [createTexture]: default parameters, no
    image. *)
Definition fresh_texture : Texture :=
  mkTexture 0 0 REPEAT REPEAT NEAREST_MIPMAP_LINEAR LINEAR [].

(** Texel-index wrapping (ES 3.0, 3.8.9). *)
Definition wrap (m : WrapMode) (size i : Z) : Z :=
  match m with
  | CLAMP_TO_EDGE => Z.max 0 (Z.min (size - 1) i)
  | REPEAT => i mod size
  | MIRRORED_REPEAT =>
      let a := i mod (2 * size) in
      if a <? size then a else 2 * size - 1 - a
  end%Z.

(** The red channel of texel (i, j) of an R8 image, normalised to [0, 1]. *)
Definition texel (t : Texture) (i j : Z) : R :=
  IZR (Z.of_N (Byte.to_N
    (nth (Z.to_nat (j * tex_width t + i)%Z) (tex_data t) x00))) / 255.

Definition sample_nearest (t : Texture) (u v : R) : R :=
  let i := wrap (tex_wrap_s t) (tex_width t) (Zfloor (u * IZR (tex_width t))) in
  let j := wrap (tex_wrap_t t) (tex_height t) (Zfloor (v * IZR (tex_height t))) in
  texel t i j.

(** Bilinear filtering (ES 3.0, 3.8.10): the four texels around
    (u*w - 1/2, v*h - 1/2), each index wrapped on its own. *)
Definition sample_linear (t : Texture) (u v : R) : R :=
  let x := u * IZR (tex_width t) - 0.5 in
  let y := v * IZR (tex_height t) - 0.5 in
  let i0 := wrap (tex_wrap_s t) (tex_width t) (Zfloor x) in
  let i1 := wrap (tex_wrap_s t) (tex_width t) (Zfloor x + 1)%Z in
  let j0 := wrap (tex_wrap_t t) (tex_height t) (Zfloor y) in
  let j1 := wrap (tex_wrap_t t) (tex_height t) (Zfloor y + 1)%Z in
  let a := x - IZR (Zfloor x) in
  let b := y - IZR (Zfloor y) in
  (1 - a) * (1 - b) * texel t i0 j0 + a * (1 - b) * texel t i1 j0
  + (1 - a) * b * texel t i0 j1 + a * b * texel t i1 j1.

(** [texture(sampler, vec2(u, v)).r] on a texture with a single level.
    A minification filter that needs mipmaps makes such a texture
    incomplete, and sampling it yields 0.  Otherwise [magnify] tells
    whether the pixel footprint selects TEXTURE_MAG_FILTER or
    TEXTURE_MIN_FILTER. *)
Definition texture_r (magnify : bool) (t : Texture) (u v : R) : R :=
  match tex_min_filter t with
  | NEAREST_MIPMAP_LINEAR => 0
  | min_filter =>
      match (if magnify then tex_mag_filter t else min_filter) with
      | NEAREST => sample_nearest t u v
      | LINEAR => sample_linear t u v
      | NEAREST_MIPMAP_LINEAR => 0
      end
  end.

End GL.

(** ** GLSL ES 3.00 built-in functions, over the reals *)

Module GLSL.

Local Open Scope R_scope.

Definition vec2 : Type := R * R.
Definition vec3 : Type := R * R * R.
Record vec4 := mkvec4 { r : R; g : R; b : R; a : R }.

Definition clamp (x lo hi : R) : R := Rmin (Rmax x lo) hi.

Definition fract (x : R) : R := x - IZR (Zfloor x).

Definition mix (x y a : R) : R := x * (1 - a) + y * a.

(** [smoothstep] by the formula of the GLSL specification, which is the
    one evaluated also when [edge0 >= edge1], as in both uses of the shader. *)
Definition smoothstep (edge0 edge1 x : R) : R :=
  let t := clamp ((x - edge0) / (edge1 - edge0)) 0 1 in
  t * t * (3 - 2 * t).

(** [pow(x, y)]: x to the power y for x > 0, and 0 at x = 0 (where GLSL
    defines it for y > 0 only).  GLSL leaves x < 0 undefined. *)
Definition pow (x y : R) : R :=
  if Rlt_dec 0 x then Rpower x y else 0.

Definition length (v : vec2) : R :=
  sqrt (fst v * fst v + snd v * snd v).

(** Two-argument [atan(y, x)], with values in [-pi, pi]; GLSL leaves
    [atan(0, 0)] undefined. *)
Definition atan (y x : R) : R :=
  if Rlt_dec 0 x then Ratan.atan (y / x)
  else if Rlt_dec x 0 then
    (if Rle_dec 0 y then Ratan.atan (y / x) + Rtrigo1.PI
     else Ratan.atan (y / x) - Rtrigo1.PI)
  else if Rlt_dec 0 y then Rtrigo1.PI / 2
  else if Rlt_dec y 0 then - (Rtrigo1.PI / 2)
  else 0.

(** [vec4 + float] adds the scalar to every component. *)
Definition vec4_add_scalar (v : vec4) (s : R) : vec4 :=
  mkvec4 (r v + s) (g v + s) (b v + s) (a v + s).

End GLSL.

(** ** The fragment shader *)

Module FS.

Import GLSL.
Local Open Scope R_scope.

(** [#define PI 3.14159265] *)
Definition PI : R := 3.14159265.

(** Exponential remap [0,1], higher k should expand low bins. *)
Definition exp01 (f01 k : R) : R :=
  (exp (f01 * k) - 1) / (exp k - 1).

Section Uniforms.

(** [uniform sampler2D uSpectrum] (the texture bound to its unit, and the
    filter the footprint selects), [uniform float uBins],
    [uniform vec2 uAspect]. *)
Variable magnify : bool.
Variable uSpectrum : GL.Texture.
Variable uBins : R.
Variable uAspect : vec2.

Definition sampleSpectrum (bin : R) : R :=
  let bin := clamp bin 1 (uBins - 1) in
  let uC := (bin + 0.5) / uBins in
  let uL := (bin - 1 + 0.5) / uBins in
  let uR := (bin + 1 + 0.5) / uBins in
  let c := GL.texture_r magnify uSpectrum uC 0.5 in
  let l := GL.texture_r magnify uSpectrum uL 0.5 in
  let r := GL.texture_r magnify uSpectrum uR 0.5 in
  let smoothSample := (l + 2 * c + r) * 0.25 in
  let smoothSample := Rmax (smoothSample - 0.01) 0 in
  smoothSample.

Definition rangeRings (radius count : R) : R :=
  let t := fract (radius * count) in
  let ring := smoothstep 0.02 0 (Rmin t (1 - t)) in
  ring * smoothstep 1 0 radius.

(** [main]: [None] is [discard], [Some c] is the value written to
    [fragColor]. *)
Definition main (vUV : vec2) : option vec4 :=
  let polarUV := (fst vUV * 2 - 1, snd vUV * 2 - 1) in
  let polarUV :=
    (fst polarUV * (fst uAspect / Rmax 1 (snd uAspect)), snd polarUV) in
  let radius := length polarUV in
  if Rlt_dec 1 radius then None else
  let angle := atan (snd polarUV) (fst polarUV) - PI * 0.5 in
  let angle := if Rlt_dec angle 0 then angle + 2 * PI else angle in
  let angle01 := angle * 0.5 / PI in
  let k := 3 in
  let f01 := exp01 angle01 k in
  let bin := f01 * (uBins - 1) in
  let amp := sampleSpectrum bin in
  let tilt := pow ((bin + 1) / uBins) 0.5 in
  let amp := amp * mix 0.7 2 tilt in
  let gain := pow amp 1.5 in
  let base : vec3 := (0.05, 0.08, 0.06) in
  let glow : vec3 := (0.25 * gain, 1 * gain, 0.55 * gain) in
  Some (vec4_add_scalar
          (mkvec4 (fst (fst base) + fst (fst glow))
                  (snd (fst base) + snd (fst glow))
                  (snd base + snd glow) 1)
          (rangeRings radius 5)).

(** *** The named intermediate values of the shader, as functions

    Each is the right-hand side of the source line that binds the local of
    the same name; [main_stages] and [sampleSpectrum_stages] below show that
    [main] and [sampleSpectrum] are their composition. *)

(** [bin] after line 228, the value the three texture reads use. *)
Definition sampled_bin (bin : R) : R := clamp bin 1 (uBins - 1).

(** The 1-2-1 kernel at an already clamped coordinate (lines 231-240). *)
Definition kernel121 (bin : R) : R :=
  let c := GL.texture_r magnify uSpectrum ((bin + 0.5) / uBins) 0.5 in
  let l := GL.texture_r magnify uSpectrum ((bin - 1 + 0.5) / uBins) 0.5 in
  let r := GL.texture_r magnify uSpectrum ((bin + 1 + 0.5) / uBins) 0.5 in
  (l + 2 * c + r) * 0.25.

(** [smoothSample] after line 240, before the noise gate. *)
Definition smoothSample (bin : R) : R := kernel121 (sampled_bin bin).

(** [polarUV] after line 261. *)
Definition polarUV_of (vUV : vec2) : vec2 :=
  ((fst vUV * 2 - 1) * (fst uAspect / Rmax 1 (snd uAspect)), snd vUV * 2 - 1).

Definition radius_of (vUV : vec2) : R := length (polarUV_of vUV).

(** [angle01] of line 270. *)
Definition angle01_of (vUV : vec2) : R :=
  let p := polarUV_of vUV in
  let angle := atan (snd p) (fst p) - PI * 0.5 in
  let angle := if Rlt_dec angle 0 then angle + 2 * PI else angle in
  angle * 0.5 / PI.

(** [bin] of line 273, as [main] holds it (never reassigned in [main]). *)
Definition bin_of (angle01 : R) : R := exp01 angle01 3 * (uBins - 1).

(** [tilt] of line 277. *)
Definition tilt_of (bin : R) : R := pow ((bin + 1) / uBins) 0.5.

(** [gain] of line 281. *)
Definition gain_of (bin : R) : R :=
  pow (sampleSpectrum bin * mix 0.7 2 (tilt_of bin)) 1.5.

(** [glow] of line 283. *)
Definition glow_of (bin : R) : vec3 :=
  (0.25 * gain_of bin, 1 * gain_of bin, 0.55 * gain_of bin).

(** [ring] of line 252, before the fade of line 255. *)
Definition ring_of (radius count : R) : R :=
  let t := fract (radius * count) in
  smoothstep 0.02 0 (Rmin t (1 - t)).

(** [fragColor] of line 284. *)
Definition fragColor_of (radius bin : R) : vec4 :=
  let gl := glow_of bin in
  vec4_add_scalar
    (mkvec4 (0.05 + fst (fst gl)) (0.08 + snd (fst gl)) (0.06 + snd gl) 1)
    (rangeRings radius 5).

End Uniforms.

End FS.

(** ** The WebGL2 context, as far as [main.js] drives it *)

Inductive GLError := NO_ERROR | INVALID_VALUE | INVALID_OPERATION.

(** The uniforms of the linked program.  The host only ever stores integers
    there ([bins], [canvas.width], [canvas.height]); the shader reads the
    last two as floats. *)
Record Uniforms := mkUniforms {
  val_uSpectrum : Z;
  val_uBins : Z;
  val_uAspect : Z * Z
}.

(** The three locations [getUniformLocation] hands out. *)
Inductive Location := loc_uSpectrum | loc_uBins | loc_uAspect.

Inductive TexParam :=
| TEXTURE_WRAP_S (m : GL.WrapMode)
| TEXTURE_WRAP_T (m : GL.WrapMode)
| TEXTURE_MIN_FILTER (f : GL.FilterMode)
| TEXTURE_MAG_FILTER (f : GL.FilterMode).

(** What one [drawArrays] hands to the fragment stage: the viewport, the
    program's uniforms and the texture bound to the unit [uSpectrum] names,
    all as they are when the call is issued. *)
Record DrawCall := mkDrawCall {
  d_viewport : Z * Z * Z * Z;
  d_uniforms : Uniforms;
  d_texture : option GL.Texture
}.

Inductive FbOp :=
| Clear (color : Z * Z * Z * Z)
| Draw (d : DrawCall).

Record Context := mkContext {
  viewport : Z * Z * Z * Z;
  textures : nat -> option GL.Texture;
  next_texture : nat;
  active_texture : nat;
  texture_binding_2d : nat -> option nat;
  unpack_alignment : Z;
  current_program : bool;
  uniforms : Uniforms;
  vertex_array_binding : bool;
  clear_color : Z * Z * Z * Z;
  gl_error : GLError;
  framebuffer : list FbOp            (* newest first *)
}.

Definition upd {A : Type} (f : nat -> A) (k : nat) (v : A) : nat -> A :=
  fun k' => if Nat.eqb k' k then v else f k'.

Definition set_viewport v (c : Context) : Context :=
  mkContext v (textures c) (next_texture c) (active_texture c)
    (texture_binding_2d c) (unpack_alignment c) (current_program c)
    (uniforms c) (vertex_array_binding c) (clear_color c) (gl_error c)
    (framebuffer c).

Definition set_textures ts n (c : Context) : Context :=
  mkContext (viewport c) ts n (active_texture c)
    (texture_binding_2d c) (unpack_alignment c) (current_program c)
    (uniforms c) (vertex_array_binding c) (clear_color c) (gl_error c)
    (framebuffer c).

Definition set_active_texture u (c : Context) : Context :=
  mkContext (viewport c) (textures c) (next_texture c) u
    (texture_binding_2d c) (unpack_alignment c) (current_program c)
    (uniforms c) (vertex_array_binding c) (clear_color c) (gl_error c)
    (framebuffer c).

Definition set_texture_binding_2d b (c : Context) : Context :=
  mkContext (viewport c) (textures c) (next_texture c) (active_texture c)
    b (unpack_alignment c) (current_program c)
    (uniforms c) (vertex_array_binding c) (clear_color c) (gl_error c)
    (framebuffer c).

Definition set_unpack_alignment a (c : Context) : Context :=
  mkContext (viewport c) (textures c) (next_texture c) (active_texture c)
    (texture_binding_2d c) a (current_program c)
    (uniforms c) (vertex_array_binding c) (clear_color c) (gl_error c)
    (framebuffer c).

Definition set_current_program p (c : Context) : Context :=
  mkContext (viewport c) (textures c) (next_texture c) (active_texture c)
    (texture_binding_2d c) (unpack_alignment c) p
    (uniforms c) (vertex_array_binding c) (clear_color c) (gl_error c)
    (framebuffer c).

Definition set_uniforms u (c : Context) : Context :=
  mkContext (viewport c) (textures c) (next_texture c) (active_texture c)
    (texture_binding_2d c) (unpack_alignment c) (current_program c)
    u (vertex_array_binding c) (clear_color c) (gl_error c)
    (framebuffer c).

Definition set_vertex_array_binding v (c : Context) : Context :=
  mkContext (viewport c) (textures c) (next_texture c) (active_texture c)
    (texture_binding_2d c) (unpack_alignment c) (current_program c)
    (uniforms c) v (clear_color c) (gl_error c)
    (framebuffer c).

Definition set_clear_color k (c : Context) : Context :=
  mkContext (viewport c) (textures c) (next_texture c) (active_texture c)
    (texture_binding_2d c) (unpack_alignment c) (current_program c)
    (uniforms c) (vertex_array_binding c) k (gl_error c)
    (framebuffer c).

(** GL keeps the first error until it is read. *)
Definition raise (e : GLError) (c : Context) : Context :=
  mkContext (viewport c) (textures c) (next_texture c) (active_texture c)
    (texture_binding_2d c) (unpack_alignment c) (current_program c)
    (uniforms c) (vertex_array_binding c) (clear_color c)
    (match gl_error c with NO_ERROR => e | e0 => e0 end)
    (framebuffer c).

Definition push_fb (op : FbOp) (c : Context) : Context :=
  mkContext (viewport c) (textures c) (next_texture c) (active_texture c)
    (texture_binding_2d c) (unpack_alignment c) (current_program c)
    (uniforms c) (vertex_array_binding c) (clear_color c) (gl_error c)
    (op :: framebuffer c).

(** The texture object bound to TEXTURE_2D of a unit. *)
Definition bound_texture (unit : nat) (c : Context) : option (nat * GL.Texture) :=
  match texture_binding_2d c unit with
  | None => None
  | Some name =>
      match textures c name with
      | None => None
      | Some t => Some (name, t)
      end
  end.

(** [viewport(x, y, w, h)].  An implementation clamps [w] and [h] to its
    MAX_VIEWPORT_DIMS; that limit is not part of [Context], so the stored
    viewport is the one GL keeps for sizes within the limit. *)
Definition gl_viewport (x y w h : Z) (c : Context) : Context :=
  if (w <? 0) || (h <? 0) then raise INVALID_VALUE c
  else set_viewport (x, y, w, h) c.

Definition gl_createTexture (c : Context) : nat * Context :=
  let name := next_texture c in
  (name, set_textures (upd (textures c) name (Some GL.fresh_texture)) (S name) c).

Definition gl_bindTexture (tex : option nat) (c : Context) : Context :=
  set_texture_binding_2d (upd (texture_binding_2d c) (active_texture c) tex) c.

Definition gl_activeTexture (unit : nat) (c : Context) : Context :=
  set_active_texture unit c.

Definition gl_pixelStorei_UNPACK_ALIGNMENT (a : Z) (c : Context) : Context :=
  if (a =? 1) || (a =? 2) || (a =? 4) || (a =? 8)
  then set_unpack_alignment a c else raise INVALID_VALUE c.

(** The texture after [texParameteri] sets one of its parameters. *)
Definition tex_parameter (p : TexParam) (t : GL.Texture) : GL.Texture :=
  match p with
  | TEXTURE_WRAP_S m =>
      GL.mkTexture (GL.tex_width t) (GL.tex_height t) m (GL.tex_wrap_t t)
        (GL.tex_min_filter t) (GL.tex_mag_filter t) (GL.tex_data t)
  | TEXTURE_WRAP_T m =>
      GL.mkTexture (GL.tex_width t) (GL.tex_height t) (GL.tex_wrap_s t) m
        (GL.tex_min_filter t) (GL.tex_mag_filter t) (GL.tex_data t)
  | TEXTURE_MIN_FILTER f =>
      GL.mkTexture (GL.tex_width t) (GL.tex_height t) (GL.tex_wrap_s t)
        (GL.tex_wrap_t t) f (GL.tex_mag_filter t) (GL.tex_data t)
  | TEXTURE_MAG_FILTER f =>
      GL.mkTexture (GL.tex_width t) (GL.tex_height t) (GL.tex_wrap_s t)
        (GL.tex_wrap_t t) (GL.tex_min_filter t) f (GL.tex_data t)
  end.

(** A command that changes the texture bound to TEXTURE_2D of the active
    unit; without one it raises INVALID_OPERATION. *)
Definition update_bound (f : GL.Texture -> GL.Texture) (c : Context) : Context :=
  match bound_texture (active_texture c) c with
  | None => raise INVALID_OPERATION c
  | Some (name, t) =>
      set_textures (upd (textures c) name (Some (f t))) (next_texture c) c
  end.

Definition gl_texParameteri (p : TexParam) (c : Context) : Context :=
  update_bound (tex_parameter p) c.

(** Bytes from the start of one source row to the start of the next. *)
Definition row_stride (alignment width : Z) : Z :=
  (width + alignment - 1) / alignment * alignment.

(** Bytes a [width] x [height] R8 upload reads from its source. *)
Definition required_bytes (alignment width height : Z) : Z :=
  if (width <=? 0) || (height <=? 0) then 0
  else (height - 1) * row_stride alignment width + width.

(** [texImage2D(TEXTURE_2D, 0, R8, width, height, 0, RED, UNSIGNED_BYTE, null)]:
    WebGL allocates the level zero-filled.  An implementation refuses sizes
    above its MAX_TEXTURE_SIZE (2048 or more) with INVALID_VALUE; that limit
    is not part of [Context], so this is the call for sizes up to 2048, and
    the program asks for 1024 x 1. *)
Definition gl_texImage2D_null (width height : Z) (c : Context) : Context :=
  if (width <? 0) || (height <? 0) then raise INVALID_VALUE c
  else
    update_bound
      (fun t =>
         GL.mkTexture width height (GL.tex_wrap_s t) (GL.tex_wrap_t t)
           (GL.tex_min_filter t) (GL.tex_mag_filter t)
           (repeat x00 (Z.to_nat (width * height))))
      c.

(** The image after a sub-image write: texel (i, j) inside the rectangle
    comes from the source row j - yoffset, the others are kept. *)
Definition sub_image (t : GL.Texture) (xoffset yoffset width height stride : Z)
    (src : list byte) : list byte :=
  map (fun p =>
         let i := Z.of_nat p mod GL.tex_width t in
         let j := Z.of_nat p / GL.tex_width t in
         if (xoffset <=? i) && (i <? xoffset + width)
            && (yoffset <=? j) && (j <? yoffset + height)
         then nth (Z.to_nat ((j - yoffset) * stride + (i - xoffset))) src x00
         else nth p (GL.tex_data t) x00)
      (seq 0 (List.length (GL.tex_data t))).

(** [texSubImage2D(TEXTURE_2D, 0, xoffset, yoffset, width, height, RED,
    UNSIGNED_BYTE, srcData)]. *)
Definition gl_texSubImage2D (xoffset yoffset width height : Z)
    (srcData : list byte) (c : Context) : Context :=
  match bound_texture (active_texture c) c with
  | None => raise INVALID_OPERATION c
  | Some (name, t) =>
      if (xoffset <? 0) || (yoffset <? 0) || (width <? 0) || (height <? 0)
         || (GL.tex_width t <? xoffset + width)
         || (GL.tex_height t <? yoffset + height)
      then raise INVALID_VALUE c
      else if Z.of_nat (List.length srcData)
              <? required_bytes (unpack_alignment c) width height
      then raise INVALID_OPERATION c
      else
        let t' :=
          GL.mkTexture (GL.tex_width t) (GL.tex_height t) (GL.tex_wrap_s t)
            (GL.tex_wrap_t t) (GL.tex_min_filter t) (GL.tex_mag_filter t)
            (sub_image t xoffset yoffset width height
               (row_stride (unpack_alignment c) width) srcData) in
        set_textures (upd (textures c) name (Some t')) (next_texture c) c
  end.

Definition gl_useProgram (c : Context) : Context := set_current_program true c.

Definition gl_uniform1i (l : Location) (v : Z) (c : Context) : Context :=
  if current_program c then
    match l with
    | loc_uSpectrum =>
        set_uniforms (mkUniforms v (val_uBins (uniforms c))
                        (val_uAspect (uniforms c))) c
    | _ => raise INVALID_OPERATION c
    end
  else raise INVALID_OPERATION c.

Definition gl_uniform1f (l : Location) (v : Z) (c : Context) : Context :=
  if current_program c then
    match l with
    | loc_uBins =>
        set_uniforms (mkUniforms (val_uSpectrum (uniforms c)) v
                        (val_uAspect (uniforms c))) c
    | _ => raise INVALID_OPERATION c
    end
  else raise INVALID_OPERATION c.

Definition gl_uniform2f (l : Location) (x y : Z) (c : Context) : Context :=
  if current_program c then
    match l with
    | loc_uAspect =>
        set_uniforms (mkUniforms (val_uSpectrum (uniforms c))
                        (val_uBins (uniforms c)) (x, y)) c
    | _ => raise INVALID_OPERATION c
    end
  else raise INVALID_OPERATION c.

Definition gl_clearColor (k : Z * Z * Z * Z) (c : Context) : Context :=
  set_clear_color k c.

Definition gl_clear (c : Context) : Context := push_fb (Clear (clear_color c)) c.

Definition gl_bindVertexArray (bound : bool) (c : Context) : Context :=
  set_vertex_array_binding bound c.

(** [drawArrays(TRIANGLE_STRIP, 0, 4)] with the quad's vertex array: the
    fragment stage runs with the state of this moment. *)
Definition gl_drawArrays (c : Context) : Context :=
  if current_program c then
    push_fb (Draw (mkDrawCall (viewport c) (uniforms c)
                     (option_map snd
                        (bound_texture (Z.to_nat (val_uSpectrum (uniforms c))) c))))
            c
  else raise INVALID_OPERATION c.

(** ** The page: canvas, audio analyser and the module's variables *)

(** [analyzer], [bins], [spectrum] and [spectrumTexture], which the click
    handler assigns together once the microphone is granted. *)
Record Session := mkSession {
  analyzer_fftSize : Z;
  bins : Z;
  spectrum : list byte;
  spectrumTexture : nat
}.

(** [window.devicePixelRatio]: a non-negative double, held as the rational
    [ratio_num / ratio_den] it stands for. *)
Record Ratio := mkRatio { ratio_num : N; ratio_den : positive }.

(** The canvas's drawing-buffer size, what the browser supplies (layout
    size of the canvas in CSS pixels, the device pixel ratio, the analyser's
    current byte magnitude per bin), the GL context, and the module
    variables.  [session = None] is "still undefined"; [raf_pending] tells
    whether [render] is scheduled for the next animation frame. *)
Record World := mkWorld {
  canvas_width : Z;
  canvas_height : Z;
  clientWidth : N;
  clientHeight : N;
  devicePixelRatio : Ratio;
  analyser_data : nat -> byte;
  context : Context;
  session : option Session;
  okButton : bool;
  raf_pending : bool
}.

Definition set_canvas_size (w h : Z) (s : World) : World :=
  mkWorld w h (clientWidth s) (clientHeight s) (devicePixelRatio s)
    (analyser_data s) (context s) (session s) (okButton s) (raf_pending s).

Definition set_layout (cw ch : N) (dpr : Ratio) (s : World) : World :=
  mkWorld (canvas_width s) (canvas_height s) cw ch dpr
    (analyser_data s) (context s) (session s) (okButton s) (raf_pending s).

Definition set_analyser_data (f : nat -> byte) (s : World) : World :=
  mkWorld (canvas_width s) (canvas_height s) (clientWidth s) (clientHeight s)
    (devicePixelRatio s) f (context s) (session s) (okButton s) (raf_pending s).

Definition set_context (c : Context) (s : World) : World :=
  mkWorld (canvas_width s) (canvas_height s) (clientWidth s) (clientHeight s)
    (devicePixelRatio s) (analyser_data s) c (session s) (okButton s)
    (raf_pending s).

Definition set_session (x : option Session) (s : World) : World :=
  mkWorld (canvas_width s) (canvas_height s) (clientWidth s) (clientHeight s)
    (devicePixelRatio s) (analyser_data s) (context s) x (okButton s)
    (raf_pending s).

Definition set_okButton (b : bool) (s : World) : World :=
  mkWorld (canvas_width s) (canvas_height s) (clientWidth s) (clientHeight s)
    (devicePixelRatio s) (analyser_data s) (context s) (session s) b
    (raf_pending s).

Definition set_raf_pending (b : bool) (s : World) : World :=
  mkWorld (canvas_width s) (canvas_height s) (clientWidth s) (clientHeight s)
    (devicePixelRatio s) (analyser_data s) (context s) (session s)
    (okButton s) b.

(** JavaScript numbers are IEEE-754 doubles: the product of two of them is
    the double nearest to the exact product, ties going to the even
    significand.  [binade a b] is the exponent k with 2^k <= a/b < 2^(k+1),
    for positive [a] and [b]. *)
Definition binade (a b : Z) : Z :=
  let k := Z.log2 a - Z.log2 b in
  if 0 <=? k then (if b * 2 ^ k <=? a then k else k - 1)
  else (if b <=? a * 2 ^ (- k) then k else k - 1).

(** The integer nearest to n/d, ties to even. *)
Definition round_half_even (n d : Z) : Z :=
  let q := n / d in
  let r := n mod d in
  if 2 * r <? d then q
  else if d <? 2 * r then q + 1
  else if Z.even q then q else q + 1.

(** [Math.floor(x)] of the double [x] nearest to a/b: a 53-bit significand
    [m] at exponent [e], the exponent not below that of the subnormals.
    (The products of [resizeCanvas] are far below the overflow threshold
    2^1024.) *)
Definition floor_double (a b : Z) : Z :=
  if a =? 0 then 0
  else
    let e := Z.max (binade a b - 52) (-1074) in
    let m := if e <=? 0 then round_half_even (a * 2 ^ (- e)) b
             else round_half_even a (b * 2 ^ e) in
    if 0 <=? e then m * 2 ^ e else m / 2 ^ (- e).

(** [Math.floor(n * ratio)] *)
Definition floor_scaled (n : N) (ratio : Ratio) : Z :=
  floor_double (Z.of_N (n * ratio_num ratio)) (Zpos (ratio_den ratio)).

Definition resizeCanvas (s : World) : World :=
  let dpr := devicePixelRatio s in
  let dpr := if (ratio_num dpr =? 0)%N then mkRatio 1 1 else dpr in
  let devicePixelRatio :=
    if (ratio_num dpr <=? 2 * Npos (ratio_den dpr))%N then dpr
    else mkRatio 2 1 in
  let width := floor_scaled (clientWidth s) devicePixelRatio in
  let height := floor_scaled (clientHeight s) devicePixelRatio in
  if negb (canvas_width s =? width) || negb (canvas_height s =? height) then
    let s := set_canvas_size width height s in
    set_context (gl_viewport 0 0 width height (context s)) s
  else s.

(** [analyser.getByteFrequencyData(array)]: the first
    min(array.length, frequencyBinCount) elements are overwritten with the
    current estimate. *)
Definition getByteFrequencyData (data : nat -> byte) (frequencyBinCount : Z)
    (array : list byte) : list byte :=
  map (fun i => if Z.of_nat i <? frequencyBinCount then data i
                else nth i array x00)
      (seq 0 (List.length array)).

(** The values [initAudioAnalyzer] resolves to ([fftSize], [bins] =
    [frequencyBinCount] = [fftSize / 2], the zero-filled [Uint8Array]), or
    [None] when [getUserMedia] rejects. *)
Definition initAudioAnalyzer (granted : bool) : option (Z * Z * list byte) :=
  if granted then
    let fftSize := 2048 in
    let bins := fftSize / 2 in
    Some (fftSize, bins, repeat x00 (Z.to_nat bins))
  else None.

Definition createSpectrumTexture (bins : Z) (c : Context) : nat * Context :=
  let (texture, c) := gl_createTexture c in
  let c := gl_bindTexture (Some texture) c in
  let c := gl_pixelStorei_UNPACK_ALIGNMENT 1 c in
  let c := gl_texParameteri (TEXTURE_WRAP_S GL.CLAMP_TO_EDGE) c in
  let c := gl_texParameteri (TEXTURE_WRAP_T GL.CLAMP_TO_EDGE) c in
  let c := gl_texParameteri (TEXTURE_MIN_FILTER GL.LINEAR) c in
  let c := gl_texParameteri (TEXTURE_MAG_FILTER GL.LINEAR) c in
  let c := gl_texImage2D_null bins 1 c in
  let c := gl_bindTexture None c in
  (texture, c).

(** The click handler of [okButton] (lines 158-177), run from the click to
    its end with nothing happening in between: the microphone request is
    settled at once.  A rejected request lands in the [catch] and changes
    nothing.  (The handler taken apart at its [await] is [page_step]
    below.) *)
Definition onClick (granted : bool) (s : World) : World :=
  if okButton s then
    match initAudioAnalyzer granted with
    | None => s
    | Some (fftSize, bins, spectrum) =>
        let (spectrumTexture, c) := createSpectrumTexture bins (context s) in
        let c := gl_useProgram c in
        let c := gl_uniform1i loc_uSpectrum 0 c in
        let c := gl_uniform1f loc_uBins bins c in
        let c := gl_uniform2f loc_uAspect (canvas_width s) (canvas_height s) c in
        let s := set_context c s in
        let s := set_session
                   (Some (mkSession fftSize bins spectrum spectrumTexture)) s in
        let s := set_okButton false s in
        set_raf_pending true s
    end
  else s.

(** The frame loop (lines 183-210).  [render] is only ever scheduled by the
    click handler, after the module variables are assigned. *)
Definition render (s : World) : World :=
  let s := resizeCanvas s in
  match session s with
  | None => s
  | Some ss =>
      let spectrum :=
        getByteFrequencyData (analyser_data s) (analyzer_fftSize ss / 2)
          (spectrum ss) in
      let c := context s in
      let c := gl_activeTexture 0 c in
      let c := gl_bindTexture (Some (spectrumTexture ss)) c in
      let c := gl_texSubImage2D 0 0 (bins ss) 1 spectrum c in
      let c := gl_clearColor (0, 0, 0, 1) c in
      let c := gl_clear c in
      let c := gl_useProgram c in
      let c := gl_bindVertexArray true c in
      let c := gl_drawArrays c in
      let c := gl_bindVertexArray false c in
      let s := set_context c s in
      let s := set_session
                 (Some (mkSession (analyzer_fftSize ss) (bins ss) spectrum
                          (spectrumTexture ss))) s in
      set_raf_pending true s
  end.

(** What can happen to the page once [init] has linked the program and put
    the button up. *)
Inductive Event :=
| Layout (cw ch : N) (dpr : Ratio) (* the canvas is laid out anew; the
                                      ResizeObserver calls [resizeCanvas] *)
| Audio (data : nat -> byte)       (* the analyser has a new estimate *)
| Click (granted : bool)           (* the button is pressed *)
| AnimationFrame.                  (* the browser runs the frame callbacks *)

Definition step (e : Event) (s : World) : World :=
  match e with
  | Layout cw ch dpr => resizeCanvas (set_layout cw ch dpr s)
  | Audio data => set_analyser_data data s
  | Click granted => onClick granted s
  | AnimationFrame =>
      if raf_pending s then render (set_raf_pending false s) else s
  end.

Definition run (es : list Event) (s : World) : World :=
  fold_left (fun s e => step e s) es s.

(** A context as [getContext('webgl2')] returns it for a canvas of the
    given size, after the quad's vertex array is set up and unbound and the
    program is linked. *)
Definition initial_context (width height : Z) : Context :=
  mkContext (0, 0, width, height) (fun _ => None) 1 0 (fun _ => None) 4 false
    (mkUniforms 0 0 (0, 0)) false (0, 0, 0, 0) NO_ERROR [].

(** The page when the button appears: a canvas whose drawing buffer is
    [width] x [height], laid out at [cw] x [ch] CSS pixels. *)
Definition boot (width height cw ch : N) (dpr : Ratio) : World :=
  mkWorld (Z.of_N width) (Z.of_N height) cw ch dpr (fun _ => x00)
    (initial_context (Z.of_N width) (Z.of_N height)) None true false.

(** The latest draw call in the framebuffer's history. *)
Definition last_draw (c : Context) : option DrawCall :=
  match framebuffer c with
  | Draw d :: _ => Some d
  | _ => None
  end.

Definition count_draws (c : Context) : nat :=
  List.length (filter (fun op => match op with Draw _ => true | _ => false end)
                 (framebuffer c)).


(** The fragment shader as one draw call runs it: the uniforms and the
    texture the call captured.  Without a bound texture the sampler reads
    an incomplete texture. *)
Definition fragment (magnify : bool) (d : DrawCall) (vUV : GLSL.vec2)
    : option GLSL.vec4 :=
  FS.main magnify
    (match d_texture d with Some t => t | None => GL.fresh_texture end)
    (IZR (val_uBins (d_uniforms d)))
    (IZR (fst (val_uAspect (d_uniforms d))),
     IZR (snd (val_uAspect (d_uniforms d))))
    vUV.

(** ** The click handler across its [await]

    The handler of lines 158-177 is asynchronous.  A click runs it up to
    [await initAudioAnalyzer()] (line 160), inside which [getUserMedia] is
    pending (line 58), and returns to the browser; lines 162-172 run when
    the request is granted.  Until then the button is still in the page:
    the canvas can be laid out anew and a further click starts a further
    request.  [Click] above is a click whose request settles before
    anything else happens; the events below take the two halves apart. *)

(** Lines 160-172 from the moment [initAudioAnalyzer()] has resolved. *)
Definition resume (s : World) : World :=
  match initAudioAnalyzer true with
  | None => s
  | Some (fftSize, bins, spectrum) =>
      let (spectrumTexture, c) := createSpectrumTexture bins (context s) in
      let c := gl_useProgram c in
      let c := gl_uniform1i loc_uSpectrum 0 c in
      let c := gl_uniform1f loc_uBins bins c in
      let c := gl_uniform2f loc_uAspect (canvas_width s) (canvas_height s) c in
      let s := set_context c s in
      let s := set_session
                 (Some (mkSession fftSize bins spectrum spectrumTexture)) s in
      let s := set_okButton false s in
      set_raf_pending true s
  end.

(** The page with its pending work: how many click handlers are suspended
    at line 160, and how many [render] callbacks the next animation frame
    will run (each [requestAnimationFrame(render)] adds one). *)
Record Page := mkPage {
  world : World;
  awaiting : nat;
  callbacks : nat
}.

Inductive PageEvent :=
| Resized (cw ch : N) (dpr : Ratio) (* the canvas is laid out anew *)
| Heard (data : nat -> byte)        (* the analyser has a new estimate *)
| Pressed                           (* the button is clicked *)
| Settled (granted : bool)          (* a pending microphone request settles *)
| FrameDue.                         (* the browser runs the frame callbacks *)

Definition page_step (e : PageEvent) (p : Page) : Page :=
  match e with
  | Resized cw ch dpr =>
      mkPage (resizeCanvas (set_layout cw ch dpr (world p)))
        (awaiting p) (callbacks p)
  | Heard data =>
      mkPage (set_analyser_data data (world p)) (awaiting p) (callbacks p)
  | Pressed =>
      if okButton (world p) then mkPage (world p) (S (awaiting p)) (callbacks p)
      else p
  | Settled granted =>
      match awaiting p with
      | O => p
      | S n =>
          if granted then mkPage (resume (world p)) n (S (callbacks p))
          else mkPage (world p) n (callbacks p)
      end
  | FrameDue =>
      mkPage (Nat.iter (callbacks p) render (world p)) (awaiting p) (callbacks p)
  end.

Definition page_run (es : list PageEvent) (p : Page) : Page :=
  fold_left (fun p e => page_step e p) es p.

(** The page when the button appears. *)
Definition start (width height cw ch : N) (dpr : Ratio) : Page :=
  mkPage (boot width height cw ch dpr) 0 0.

(** An event of the atomic model, taken apart. *)
Definition unfold_event (e : Event) : list PageEvent :=
  match e with
  | Layout cw ch dpr => [Resized cw ch dpr]
  | Audio data => [Heard data]
  | Click granted => [Pressed; Settled granted]
  | AnimationFrame => [FrameDue]
  end.

(** ** Start-up: compiling and linking the program (lines 13-36, 142-156) *)

Module Init.

Import Stdlib.Strings.String.
Local Open Scope string_scope.

Inductive ShaderType := VERTEX_SHADER | FRAGMENT_SHADER.

(** What a JavaScript call comes to: a value, or a thrown [Error] with its
    message. *)
Inductive Outcome (A : Type) :=
| Return (a : A)
| Throw (message : string).
Arguments Return {A} a.
Arguments Throw {A} message.

(** A shader object.  [sh_flagged] is GL's delete flag: [deleteShader] on a
    shader that is attached to a program only flags it, and the object goes
    when it is detached. *)
Record Shader := mkShader {
  sh_type : ShaderType;
  sh_source : string;
  sh_compile_status : bool;
  sh_info_log : string;
  sh_flagged : bool
}.

Record Program := mkProgram {
  pr_attached : list nat;
  pr_link_status : bool;
  pr_info_log : string
}.

(** The shader and program objects alive in the context, by name. *)
Record Objects := mkObjects {
  shaders : list (nat * Shader);
  programs : list (nat * Program);
  next_name : nat
}.

Definition no_objects : Objects := mkObjects [] [] 1.

Fixpoint lookup {A : Type} (name : nat) (l : list (nat * A)) : option A :=
  match l with
  | [] => None
  | (n, a) :: l => if Nat.eqb n name then Some a else lookup name l
  end.

Definition remove {A : Type} (name : nat) (l : list (nat * A)) : list (nat * A) :=
  filter (fun e => negb (Nat.eqb (fst e) name)) l.

Definition replace {A : Type} (name : nat) (a : A) (l : list (nat * A))
    : list (nat * A) :=
  map (fun e => if Nat.eqb (fst e) name then (name, a) else e) l.

Definition attached_somewhere (name : nat) (o : Objects) : bool :=
  existsb (fun p => existsb (Nat.eqb name) (pr_attached (snd p))) (programs o).

Section Driver.

(** The GLSL compiler and linker of the platform: [None] is success,
    [Some log] a failure with its info log. *)
Variable glsl_compile : ShaderType -> string -> option string.
Variable glsl_link : list Shader -> option string.

Definition gl_createShader (type : ShaderType) (o : Objects) : nat * Objects :=
  let name := next_name o in
  (name, mkObjects ((name, mkShader type "" false "" false) :: shaders o)
           (programs o) (S name)).

Definition gl_shaderSource (shader : nat) (src : string) (o : Objects) : Objects :=
  match lookup shader (shaders o) with
  | None => o
  | Some s =>
      mkObjects
        (replace shader
           (mkShader (sh_type s) src (sh_compile_status s) (sh_info_log s)
              (sh_flagged s))
           (shaders o))
        (programs o) (next_name o)
  end.

Definition gl_compileShader (shader : nat) (o : Objects) : Objects :=
  match lookup shader (shaders o) with
  | None => o
  | Some s =>
      let s' :=
        match glsl_compile (sh_type s) (sh_source s) with
        | None => mkShader (sh_type s) (sh_source s) true "" (sh_flagged s)
        | Some log => mkShader (sh_type s) (sh_source s) false log (sh_flagged s)
        end in
      mkObjects (replace shader s' (shaders o)) (programs o) (next_name o)
  end.

(** [getShaderParameter(shader, COMPILE_STATUS)] *)
Definition gl_COMPILE_STATUS (shader : nat) (o : Objects) : bool :=
  match lookup shader (shaders o) with
  | None => false
  | Some s => sh_compile_status s
  end.

Definition gl_getShaderInfoLog (shader : nat) (o : Objects) : string :=
  match lookup shader (shaders o) with
  | None => ""
  | Some s => sh_info_log s
  end.

Definition gl_deleteShader (shader : nat) (o : Objects) : Objects :=
  match lookup shader (shaders o) with
  | None => o
  | Some s =>
      if attached_somewhere shader o then
        mkObjects
          (replace shader
             (mkShader (sh_type s) (sh_source s) (sh_compile_status s)
                (sh_info_log s) true)
             (shaders o))
          (programs o) (next_name o)
      else mkObjects (remove shader (shaders o)) (programs o) (next_name o)
  end.

Definition gl_createProgram (o : Objects) : nat * Objects :=
  let name := next_name o in
  (name, mkObjects (shaders o) ((name, mkProgram [] false "") :: programs o)
           (S name)).

Definition gl_attachShader (program shader : nat) (o : Objects) : Objects :=
  match lookup program (programs o), lookup shader (shaders o) with
  | Some p, Some _ =>
      mkObjects (shaders o)
        (replace program
           (mkProgram (pr_attached p ++ [shader]) (pr_link_status p)
              (pr_info_log p))
           (programs o))
        (next_name o)
  | _, _ => o
  end.

(** The attached shader objects of a program, in attachment order. *)
Definition attached_shaders (p : Program) (o : Objects) : list Shader :=
  flat_map (fun n => match lookup n (shaders o) with
                     | Some s => [s]
                     | None => []
                     end)
           (pr_attached p).

Definition gl_linkProgram (program : nat) (o : Objects) : Objects :=
  match lookup program (programs o) with
  | None => o
  | Some p =>
      let p' :=
        match glsl_link (attached_shaders p o) with
        | None => mkProgram (pr_attached p) true ""
        | Some log => mkProgram (pr_attached p) false log
        end in
      mkObjects (shaders o) (replace program p' (programs o)) (next_name o)
  end.

(** [getProgramParameter(program, LINK_STATUS)] *)
Definition gl_LINK_STATUS (program : nat) (o : Objects) : bool :=
  match lookup program (programs o) with
  | None => false
  | Some p => pr_link_status p
  end.

Definition gl_getProgramInfoLog (program : nat) (o : Objects) : string :=
  match lookup program (programs o) with
  | None => ""
  | Some p => pr_info_log p
  end.

(** Deleting a program detaches its shaders; those flagged for deletion and
    attached nowhere else go with it. *)
Definition gl_deleteProgram (program : nat) (o : Objects) : Objects :=
  match lookup program (programs o) with
  | None => o
  | Some p =>
      let o' := mkObjects (shaders o) (remove program (programs o)) (next_name o) in
      mkObjects
        (filter (fun e => negb (sh_flagged (snd e)
                                && negb (attached_somewhere (fst e) o')))
                (shaders o))
        (programs o') (next_name o)
  end.

Definition newline : string := String (Ascii.ascii_of_nat 10) EmptyString.

Definition compileShader (type : ShaderType) (src : string) (o : Objects)
    : Outcome nat * Objects :=
  let (shader, o) := gl_createShader type o in
  let o := gl_shaderSource shader src o in
  let o := gl_compileShader shader o in
  if negb (gl_COMPILE_STATUS shader o) then
    let log := gl_getShaderInfoLog shader o in
    let o := gl_deleteShader shader o in
    (Throw ("Failed to compile shader:" ++ newline ++ log), o)
  else (Return shader, o).

Definition linkProgram (vs fs : nat) (o : Objects) : Outcome nat * Objects :=
  let (program, o) := gl_createProgram o in
  let o := gl_attachShader program vs o in
  let o := gl_attachShader program fs o in
  let o := gl_linkProgram program o in
  if negb (gl_LINK_STATUS program o) then
    let log := gl_getProgramInfoLog program o in
    let o := gl_deleteProgram program o in
    (Throw ("Failed to link gl program:" ++ newline ++ log), o)
  else (Return program, o).

(** [init] up to the point where the button is put up (lines 142-156), on
    the two fetched sources.  The result tells whether the button exists:
    a throw rejects the promise and is only logged. *)
Definition init (vsSrc fsSrc : string) (o : Objects) : Outcome nat * Objects :=
  match compileShader VERTEX_SHADER vsSrc o with
  | (Throw m, o) => (Throw m, o)
  | (Return vs, o) =>
      match compileShader FRAGMENT_SHADER fsSrc o with
      | (Throw m, o) => (Throw m, o)
      | (Return fs, o) =>
          match linkProgram vs fs o with
          | (Throw m, o) => (Throw m, o)
          | (Return program, o) =>
              let o := gl_deleteShader vs o in
              let o := gl_deleteShader fs o in
              (Return program, o)
          end
      end
  end.

(** The page once [init] has settled: with the button up, or without any
    way to start the frame loop. *)
Definition page (vsSrc fsSrc : string) (width height cw ch : N) (dpr : Ratio)
    : option World :=
  match fst (init vsSrc fsSrc no_objects) with
  | Return _ => Some (boot width height cw ch dpr)
  | Throw _ => None
  end.

End Driver.

(** Every name in the store is below [next_name], and no shader carries
    the delete flag (a flagged shader lives only inside [init]). *)
Definition well_formed (o : Objects) : Prop :=
  (forall n s, In (n, s) (shaders o) ->
     (n < next_name o)%nat /\ sh_flagged s = false) /\
  (forall n p, In (n, p) (programs o) ->
     (n < next_name o)%nat /\
     forall a, In a (pr_attached p) -> (a < next_name o)%nat).

End Init.

(** ** Vocabulary of the properties *)

(** A texture as [createSpectrumTexture] leaves it: [B] x 1 texels,
    edge-clamped on both axes, linear filtering both ways. *)
Definition spectrum_texture (t : GL.Texture) (B : Z) : Prop :=
  GL.tex_width t = B /\ GL.tex_height t = 1 /\
  GL.tex_wrap_s t = GL.CLAMP_TO_EDGE /\ GL.tex_wrap_t t = GL.CLAMP_TO_EDGE /\
  GL.tex_min_filter t = GL.LINEAR /\ GL.tex_mag_filter t = GL.LINEAR /\
  List.length (GL.tex_data t) = Z.to_nat B.

(** The spectrum texture holding the given snapshot. *)
Definition texture_of (data : list byte) : GL.Texture :=
  GL.mkTexture (Z.of_nat (List.length data)) 1 GL.CLAMP_TO_EDGE GL.CLAMP_TO_EDGE
    GL.LINEAR GL.LINEAR data.

(** s[i]: the normalised amplitude stored for bin [i]. *)
Definition amplitude (t : GL.Texture) (i : Z) : R := GL.texel t i 0.

(** The tilt of step 9 as it would be if it were computed from the clamped
    bin coordinate of step 6; [FS.tilt_of] applied to [FS.bin_of] is what
    [FS.main] computes. *)
Definition tilt_clamped (uBins angle01 : R) : R :=
  FS.tilt_of uBins (FS.sampled_bin uBins (FS.bin_of uBins angle01)).

(** The radii in (0, 1] at which the un-faded ring is at its maximum. *)
Definition ring_maxima : list R := [1 / 5; 2 / 5; 3 / 5; 4 / 5; 1]%R.

(** The same over the whole sweep 0 <= radius <= 1: the centre comes first. *)
Definition ring_maxima_closed : list R := 0%R :: ring_maxima.

Definition ratio1 : Ratio := mkRatio 1 1.

(** Before the click: nothing assigned, nothing scheduled. *)
Definition idle (s : World) : Prop :=
  okButton s = true /\ session s = None /\ raf_pending s = false.

(** After a granted click: the module variables describe a 2048-point
    analyser, a 1024-byte snapshot and its 1024 x 1 texture, and the
    program's [uSpectrum] and [uBins] are set. *)
Definition ready (s : World) : Prop :=
  okButton s = false /\
  exists ss t,
    session s = Some ss /\
    analyzer_fftSize ss = 2048 /\ bins ss = 1024 /\
    List.length (spectrum ss) = 1024%nat /\
    textures (context s) (spectrumTexture ss) = Some t /\
    spectrum_texture t 1024 /\
    val_uSpectrum (uniforms (context s)) = 0 /\
    val_uBins (uniforms (context s)) = 1024.

(** The viewport follows the canvas, and no GL error is pending. *)
Definition tracked (s : World) : Prop :=
  viewport (context s) = (0, 0, canvas_width s, canvas_height s) /\
  0 <= canvas_width s /\ 0 <= canvas_height s /\
  gl_error (context s) = NO_ERROR.

Definition inv (s : World) : Prop := tracked s /\ (idle s \/ ready s).

(** [Math.min(window.devicePixelRatio || 1, 2)], the ratio [resizeCanvas]
    scales the layout size by. *)
Definition effective_ratio (dpr : Ratio) : Ratio :=
  let dpr := if (ratio_num dpr =? 0)%N then mkRatio 1 1 else dpr in
  if (ratio_num dpr <=? 2 * Npos (ratio_den dpr))%N then dpr else mkRatio 2 1.

(** A click on the button with the microphone granted. *)
Definition is_granted_click (e : Event) : bool :=
  match e with
  | Click true => true
  | _ => false
  end.

(** The framebuffer history of a run of frames: each draw on top of its
    clear to opaque black, newest first. *)
Definition frame_ops (ds : list DrawCall) : list FbOp :=
  flat_map (fun d => [Draw d; Clear (0, 0, 0, 1)]) ds.

(** With no loop running the page is as before the click; with [n] loops
    running, [n] textures have been created and the module variables name
    the newest. *)
Definition looping (p : Page) : Prop :=
  tracked (world p) /\
  next_texture (context (world p)) = S (callbacks p) /\
  match callbacks p with
  | O => idle (world p)
  | S _ =>
      ready (world p) /\ raf_pending (world p) = true /\
      option_map spectrumTexture (session (world p)) = Some (callbacks p)
  end.

(** What one call of [render] draws: the whole texture is the analyser's
    current estimate. *)
Definition frame_draw (s : World) : DrawCall :=
  mkDrawCall (viewport (context (resizeCanvas s))) (uniforms (context s))
    (Some (texture_of (map (analyser_data s) (seq 0 1024)))).

(** The sides [resizeCanvas] computes for a layout stay within [Lw] x [Lh]. *)
Definition layout_within (Lw Lh : Z) (cw ch : N) (dpr : Ratio) : Prop :=
  floor_scaled cw (effective_ratio dpr) <= Lw /\
  floor_scaled ch (effective_ratio dpr) <= Lh.

Definition event_within (Lw Lh : Z) (e : PageEvent) : Prop :=
  match e with
  | Resized cw ch dpr => layout_within Lw Lh cw ch dpr
  | _ => True
  end.

(** The drawing buffer and the layout it was last sized for are within
    [Lw] x [Lh]. *)
Definition sized_within (Lw Lh : Z) (s : World) : Prop :=
  canvas_width s <= Lw /\ canvas_height s <= Lh /\
  layout_within Lw Lh (clientWidth s) (clientHeight s) (devicePixelRatio s).

(** * Properties of the fragment shader *)

Section SamplingFacts.

Local Open Scope R_scope.
Import GLSL.

(** ** Sampling the spectrum texture at texel centres *)

Lemma wrap_height_one m : GL.wrap m 1 0 = 0%Z.
Proof. destruct m; reflexivity. Qed.

Lemma wrap_clamp_inside size i :
  (0 <= i < size)%Z -> GL.wrap GL.CLAMP_TO_EDGE size i = i.
Proof. intros H. unfold GL.wrap. lia. Qed.

Lemma wrap_clamp_above size i :
  (0 < size <= i)%Z -> GL.wrap GL.CLAMP_TO_EDGE size i = (size - 1)%Z.
Proof. intros H. unfold GL.wrap. lia. Qed.

(** On a one-row texture, a bilinear read whose unnormalised coordinate falls
    on a texel centre has both weights at 0 and returns that texel. *)
Lemma sample_linear_center t u (i : Z) :
  GL.tex_height t = 1%Z ->
  u * IZR (GL.tex_width t) - 0.5 = IZR i ->
  GL.sample_linear t u 0.5 =
  GL.texel t (GL.wrap (GL.tex_wrap_s t) (GL.tex_width t) i) 0.
Proof.
  intros Hh Hx. unfold GL.sample_linear.
  rewrite Hh, Hx.
  replace (0.5 * 1 - 0.5) with (IZR 0) by lra.
  rewrite !ZfloorZ, wrap_height_one.
  lra.
Qed.

Lemma texture_r_center m t B (i : Z) :
  spectrum_texture t B -> (0 < B)%Z ->
  GL.texture_r m t ((IZR i + 0.5) / IZR B) 0.5 =
  amplitude t (GL.wrap GL.CLAMP_TO_EDGE B i).
Proof.
  intros (Hw & Hh & Hs & _ & Hmin & Hmag & _) HB.
  unfold GL.texture_r. rewrite Hmin, Hmag.
  destruct m; rewrite (sample_linear_center t _ i); rewrite ?Hs, ?Hw; auto.
  all: apply IZR_lt in HB; field_simplify; lra.
Qed.

Lemma texture_of_spectrum data :
  spectrum_texture (texture_of data) (Z.of_nat (List.length data)).
Proof.
  unfold spectrum_texture, texture_of; cbn. rewrite Nat2Z.id. tauto.
Qed.



(** ** [clamp] *)

Lemma clamp_id x lo hi : lo <= x <= hi -> clamp x lo hi = x.
Proof.
  intros [H1 H2]. unfold clamp.
  rewrite Rmax_left by lra. apply Rmin_left; lra.
Qed.

Lemma clamp_low x lo hi : x <= lo -> lo <= hi -> clamp x lo hi = lo.
Proof.
  intros H1 H2. unfold clamp.
  rewrite Rmax_right by lra. apply Rmin_left; lra.
Qed.

Lemma clamp_high x lo hi : hi <= x -> lo <= hi -> clamp x lo hi = hi.
Proof.
  intros H1 H2. unfold clamp.
  rewrite Rmax_left by lra. apply Rmin_right; lra.
Qed.

Lemma clamp_bounds x lo hi : lo <= hi -> lo <= clamp x lo hi <= hi.
Proof.
  intros H. unfold clamp, Rmin, Rmax.
  destruct (Rle_dec x lo); destruct (Rle_dec _ hi); lra.
Qed.

(** ** [sampleSpectrum] by stages *)

Lemma sampleSpectrum_stages m t B bin :
  FS.sampleSpectrum m t B bin =
  Rmax (FS.kernel121 m t B (FS.sampled_bin B bin) - 0.01) 0.
Proof. reflexivity. Qed.

Lemma sampleSpectrum_gate m t B bin :
  FS.sampleSpectrum m t B bin = Rmax (FS.smoothSample m t B bin - 0.01) 0.
Proof. reflexivity. Qed.

(** The kernel at an integer coordinate reads three texels, each index
    edge-clamped on its own. *)
Lemma kernel121_at_bin m t B (i : Z) :
  spectrum_texture t B -> (0 < B)%Z ->
  FS.kernel121 m t (IZR B) (IZR i) =
  (amplitude t (GL.wrap GL.CLAMP_TO_EDGE B (i - 1))
   + 2 * amplitude t (GL.wrap GL.CLAMP_TO_EDGE B i)
   + amplitude t (GL.wrap GL.CLAMP_TO_EDGE B (i + 1))) * 0.25.
Proof.
  intros Ht HB. unfold FS.kernel121.
  replace (IZR i - 1) with (IZR (i - 1)) by apply minus_IZR.
  replace (IZR i + 1) with (IZR (i + 1)) by apply plus_IZR.
  rewrite !(texture_r_center m t B _ Ht HB).
  reflexivity.
Qed.

Lemma sampled_bin_integer B (i : Z) :
  (1 <= i <= B - 1)%Z -> FS.sampled_bin (IZR B) (IZR i) = IZR i.
Proof.
  intros H. unfold FS.sampled_bin. apply clamp_id.
  replace 1 with (IZR 1) by reflexivity. rewrite <- minus_IZR.
  split; apply IZR_le; lia.
Qed.

(** C4, as stated, fails: with every bin at full scale (byte 255, i.e. 1.0)
    and B = 4, the 1-2-1 average at bin 1 is 1 but [sampleSpectrum] returns
    0.99, the average after the noise gate. *)
Lemma sampleSpectrum_gated_counterexample :
  spectrum_texture (texture_of [xff; xff; xff; xff]) 4 /\
  (1 <= 1 <= 4 - 2)%Z /\
  (amplitude (texture_of [xff; xff; xff; xff]) 0
   + 2 * amplitude (texture_of [xff; xff; xff; xff]) 1
   + amplitude (texture_of [xff; xff; xff; xff]) 2) / 4 = 1 /\
  FS.sampleSpectrum true (texture_of [xff; xff; xff; xff]) 4 1 = 0.99 /\
  FS.sampleSpectrum true (texture_of [xff; xff; xff; xff]) 4 1 <>
  (amplitude (texture_of [xff; xff; xff; xff]) 0
   + 2 * amplitude (texture_of [xff; xff; xff; xff]) 1
   + amplitude (texture_of [xff; xff; xff; xff]) 2) / 4.
Proof.
  set (t := texture_of [xff; xff; xff; xff]).
  assert (Ht : spectrum_texture t 4) by apply (texture_of_spectrum [xff; xff; xff; xff]).
  assert (Ha : forall i, (0 <= i < 4)%Z -> amplitude t i = 1).
  { intros i Hi. unfold amplitude, GL.texel.
    assert (Hc : (i = 0 \/ i = 1 \/ i = 2 \/ i = 3)%Z) by lia.
    destruct Hc as [-> | [-> | [-> | ->]]]; simpl; lra. }
  assert (Hs : FS.sampleSpectrum true t 4 1 = 0.99).
  { rewrite sampleSpectrum_stages.
    rewrite (sampled_bin_integer 4 1) by lia.
    rewrite (kernel121_at_bin true t 4 1 Ht) by lia.
    rewrite !wrap_clamp_inside by lia.
    rewrite !Ha by lia. rewrite Rmax_left; lra. }
  split; [exact Ht|]. split; [lia|].
  rewrite Hs, !Ha by lia. repeat split; lra.
Qed.

(** C4 (amended): for every integer bin index i in [1, B-2], the three
    texture reads of [sampleSpectrum] at bin coordinate i fall on the texel
    centres (i-1+0.5)/B, (i+0.5)/B, (i+1+0.5)/B and return s[i-1], s[i],
    s[i+1]; the smoothed sample before the noise gate is exactly
    (s[i-1] + 2 s[i] + s[i+1]) / 4, and [sampleSpectrum] returns that
    average less 0.01, floored at 0. *)
Theorem sampleSpectrum_interior m t B (i : Z) :
  spectrum_texture t B -> (1 <= i <= B - 2)%Z ->
  GL.texture_r m t ((IZR i - 1 + 0.5) / IZR B) 0.5 = amplitude t (i - 1) /\
  GL.texture_r m t ((IZR i + 0.5) / IZR B) 0.5 = amplitude t i /\
  GL.texture_r m t ((IZR i + 1 + 0.5) / IZR B) 0.5 = amplitude t (i + 1) /\
  FS.smoothSample m t (IZR B) (IZR i) =
    (amplitude t (i - 1) + 2 * amplitude t i + amplitude t (i + 1)) / 4 /\
  FS.sampleSpectrum m t (IZR B) (IZR i) =
    Rmax ((amplitude t (i - 1) + 2 * amplitude t i + amplitude t (i + 1)) / 4
          - 0.01) 0.
Proof.
  intros Ht Hi.
  assert (HB : (0 < B)%Z) by lia.
  assert (Hc : FS.sampled_bin (IZR B) (IZR i) = IZR i)
    by (apply sampled_bin_integer; lia).
  assert (Hk : FS.kernel121 m t (IZR B) (IZR i) =
    (amplitude t (i - 1) + 2 * amplitude t i + amplitude t (i + 1)) / 4).
  { rewrite (kernel121_at_bin m t B i Ht HB).
    rewrite !wrap_clamp_inside by lia. lra. }
  repeat split.
  - replace (IZR i - 1) with (IZR (i - 1)) by apply minus_IZR.
    rewrite (texture_r_center m t B _ Ht HB).
    rewrite wrap_clamp_inside by lia. reflexivity.
  - rewrite (texture_r_center m t B _ Ht HB).
    rewrite wrap_clamp_inside by lia. reflexivity.
  - replace (IZR i + 1) with (IZR (i + 1)) by apply plus_IZR.
    rewrite (texture_r_center m t B _ Ht HB).
    rewrite wrap_clamp_inside by lia. reflexivity.
  - unfold FS.smoothSample. rewrite Hc. exact Hk.
  - rewrite sampleSpectrum_stages, Hc, Hk. reflexivity.
Qed.

Lemma sampleSpectrum_interior_witness :
  FS.smoothSample true (texture_of [x00; x40; xff; x00]) 4 1 =
    (0 / 255 + 2 * (64 / 255) + 255 / 255) / 4.
Proof.
  pose proof (sampleSpectrum_interior true (texture_of [x00; x40; xff; x00]) 4 1
                (texture_of_spectrum _) ltac:(lia)) as (_ & _ & _ & H & _).
  rewrite H. unfold amplitude, GL.texel. simpl. reflexivity.
Defined.

(** C10: at the maximal bin coordinate B-1 the right neighbour's texture
    coordinate (B+0.5)/B is past the texture's edge (greater than 1);
    edge-clamped addressing makes that read return the last texel, so the
    smoothed value before the noise gate is (s[B-2] + 3 s[B-1]) / 4, and
    [sampleSpectrum] returns that value less 0.01, floored at 0; it does so
    at every bin coordinate from B-1 upwards, which the clamp of its first
    line brings back to B-1. *)
Theorem sampleSpectrum_last_bin m t B :
  spectrum_texture t B -> (2 <= B)%Z ->
  1 < (IZR B - 1 + 1 + 0.5) / IZR B /\
  GL.texture_r m t ((IZR B - 1 + 1 + 0.5) / IZR B) 0.5 = amplitude t (B - 1) /\
  FS.smoothSample m t (IZR B) (IZR B - 1) =
    (amplitude t (B - 2) + 3 * amplitude t (B - 1)) / 4 /\
  FS.sampleSpectrum m t (IZR B) (IZR B - 1) =
    Rmax ((amplitude t (B - 2) + 3 * amplitude t (B - 1)) / 4 - 0.01) 0 /\
  (forall bin, IZR B - 1 <= bin ->
     FS.sampleSpectrum m t (IZR B) bin =
     Rmax ((amplitude t (B - 2) + 3 * amplitude t (B - 1)) / 4 - 0.01) 0).
Proof.
  intros Ht HB2.
  assert (HB : (0 < B)%Z) by lia.
  assert (HBr : 2 <= IZR B) by (apply IZR_le in HB2; exact HB2).
  assert (Hk : FS.kernel121 m t (IZR B) (IZR B - 1) =
    (amplitude t (B - 2) + 3 * amplitude t (B - 1)) / 4).
  { replace (IZR B - 1) with (IZR (B - 1)) by apply minus_IZR.
    rewrite (kernel121_at_bin m t B _ Ht HB).
    replace (B - 1 - 1)%Z with (B - 2)%Z by lia.
    replace (B - 1 + 1)%Z with B by lia.
    rewrite (wrap_clamp_above B B) by lia.
    rewrite !wrap_clamp_inside by lia. lra. }
  assert (Hc : forall bin, IZR B - 1 <= bin ->
    FS.sampled_bin (IZR B) bin = IZR B - 1).
  { intros bin Hbin. unfold FS.sampled_bin. apply clamp_high; lra. }
  split.
  { apply Rmult_lt_reg_r with (IZR B); [lra|].
    replace ((IZR B - 1 + 1 + 0.5) / IZR B * IZR B) with (IZR B + 0.5)
      by (field; lra).
    lra. }
  split.
  { replace (IZR B - 1 + 1) with (IZR B) by lra.
    rewrite (texture_r_center m t B _ Ht HB).
    rewrite wrap_clamp_above by lia. reflexivity. }
  split.
  { unfold FS.smoothSample. rewrite Hc by lra. exact Hk. }
  split.
  { rewrite sampleSpectrum_stages, Hc, Hk by lra. reflexivity. }
  intros bin Hbin.
  rewrite sampleSpectrum_stages, Hc, Hk by assumption. reflexivity.
Qed.

Lemma sampleSpectrum_last_bin_witness :
  FS.smoothSample true (texture_of [x00; x00; x40; xff]) 4 (4 - 1) =
    (64 / 255 + 3 * (255 / 255)) / 4 /\
  FS.sampleSpectrum true (texture_of [x00; x00; x40; xff]) 4 (4 - 1) =
    Rmax ((64 / 255 + 3 * (255 / 255)) / 4 - 0.01) 0.
Proof.
  pose proof (sampleSpectrum_last_bin true (texture_of [x00; x00; x40; xff]) 4
                (texture_of_spectrum _) ltac:(lia)) as (_ & _ & H & H' & _).
  rewrite H, H'. unfold amplitude, GL.texel. simpl. split; reflexivity.
Defined.

End SamplingFacts.

Section ShadingFacts.

Local Open Scope R_scope.
Import GLSL.

(** ** The exponential remap *)

Lemma exp_gt_1 k : 0 < k -> 1 < exp k.
Proof. intros H. rewrite <- exp_0. apply exp_increasing. exact H. Qed.

Lemma exp01_0 k : FS.exp01 0 k = 0.
Proof. unfold FS.exp01. rewrite Rmult_0_l, exp_0. unfold Rdiv. lra. Qed.

Lemma exp01_1 k : 0 < k -> FS.exp01 1 k = 1.
Proof.
  intros H. unfold FS.exp01. rewrite Rmult_1_l.
  pose proof (exp_gt_1 k H). field. lra.
Qed.

Lemma exp01_increasing k x y : 0 < k -> x < y -> FS.exp01 x k < FS.exp01 y k.
Proof.
  intros Hk Hxy. unfold FS.exp01, Rdiv.
  pose proof (exp_gt_1 k Hk).
  apply Rmult_lt_compat_r.
  - apply Rinv_0_lt_compat. lra.
  - apply Rplus_lt_compat_r, exp_increasing. nra.
Qed.

(** C6: for every steepness k > 0 the remap
    (e^(angle01 k) - 1) / (e^k - 1) sends 0 to 0 and 1 to 1 and is strictly
    increasing on [0, 1]. *)
Theorem exp01_remap k :
  0 < k ->
  FS.exp01 0 k = 0 /\ FS.exp01 1 k = 1 /\
  forall x y, 0 <= x -> x < y -> y <= 1 -> FS.exp01 x k < FS.exp01 y k.
Proof.
  intros Hk. split; [apply exp01_0|]. split; [apply exp01_1; exact Hk|].
  intros x y _ Hxy _. apply exp01_increasing; assumption.
Qed.

Lemma exp01_remap_witness :
  FS.exp01 0 3 = 0 /\ FS.exp01 1 3 = 1 /\ FS.exp01 0.25 3 < FS.exp01 0.75 3.
Proof.
  destruct (exp01_remap 3 ltac:(lra)) as (H0 & H1 & Hm).
  repeat split; [exact H0 | exact H1 | apply Hm; lra].
Defined.

(** ** [main] by stages *)

Lemma main_stages m t B A vUV :
  FS.main m t B A vUV =
  if Rlt_dec 1 (FS.radius_of A vUV) then None
  else Some (FS.fragColor_of m t B (FS.radius_of A vUV)
               (FS.bin_of B (FS.angle01_of A vUV))).
Proof. reflexivity. Qed.

Lemma main_inside m t B A vUV :
  FS.radius_of A vUV <= 1 ->
  FS.main m t B A vUV =
  Some (FS.fragColor_of m t B (FS.radius_of A vUV)
          (FS.bin_of B (FS.angle01_of A vUV))).
Proof.
  intros H. rewrite main_stages.
  destruct (Rlt_dec 1 (FS.radius_of A vUV)); [lra | reflexivity].
Qed.


Lemma pow_lt a b c : 0 < c -> 0 < a < b -> pow a c < pow b c.
Proof.
  intros Hc [Ha Hab]. unfold pow.
  destruct (Rlt_dec 0 a); [|lra]. destruct (Rlt_dec 0 b); [|lra].
  apply Rlt_Rpower_l; lra.
Qed.

Lemma bin_of_0 B : FS.bin_of B 0 = 0.
Proof. unfold FS.bin_of. rewrite exp01_0. lra. Qed.

Lemma bin_of_1 B : FS.bin_of B 1 = B - 1.
Proof. unfold FS.bin_of. rewrite exp01_1 by lra. lra. Qed.

(** ** The clamp and where it applies *)

(** C5, as stated, fails: with B = 1024 and angle01 = 0, [main] computes
    the tilt from its own [bin], which is 0 (tilt = (1/1024)^0.5), not from
    the clamped coordinate 1 (which would give (2/1024)^0.5). *)
Lemma tilt_not_clamped_counterexample :
  FS.tilt_of 1024 (FS.bin_of 1024 0) = pow ((0 + 1) / 1024) 0.5 /\
  tilt_clamped 1024 0 = pow ((1 + 1) / 1024) 0.5 /\
  FS.tilt_of 1024 (FS.bin_of 1024 0) <> tilt_clamped 1024 0.
Proof.
  unfold tilt_clamped. rewrite bin_of_0.
  unfold FS.sampled_bin. rewrite clamp_low by lra.
  unfold FS.tilt_of. repeat split.
  apply Rlt_not_eq, pow_lt; lra.
Qed.

(** C5 (amended): the bin coordinate is clamped to [1, B-1] inside
    [sampleSpectrum], and the clamped value is the one the smoothing-kernel
    sampling of step 7 uses: for angle01 = 0 the bin sampled is 1 (never
    0), for angle01 = 1 it is B-1.  The frequency tilt of step 9 is
    computed in [main] from the bin coordinate of step 5 as it is before
    the clamp: [main] passes its [bin] to [sampleSpectrum] by value, so its
    gain is pow (sampleSpectrum bin * mix 0.7 2 (pow ((bin+1)/B) 0.5)) 1.5
    with the unclamped [bin]; at angle01 = 0 the tilt is (1/B)^0.5. *)
Theorem bin_clamp_scope m t B :
  2 <= B ->
  (forall bin, 1 <= FS.sampled_bin B bin <= B - 1) /\
  (forall bin, FS.sampleSpectrum m t B bin =
               Rmax (FS.kernel121 m t B (FS.sampled_bin B bin) - 0.01) 0) /\
  (forall bin, FS.sampleSpectrum m t B bin =
               FS.sampleSpectrum m t B (FS.sampled_bin B bin)) /\
  FS.sampled_bin B (FS.bin_of B 0) = 1 /\
  FS.sampled_bin B (FS.bin_of B 1) = B - 1 /\
  (forall A vUV, FS.radius_of A vUV <= 1 ->
     FS.main m t B A vUV =
     Some (FS.fragColor_of m t B (FS.radius_of A vUV)
             (FS.bin_of B (FS.angle01_of A vUV)))) /\
  (forall bin, FS.gain_of m t B bin =
     pow (FS.sampleSpectrum m t B bin * mix 0.7 2 (pow ((bin + 1) / B) 0.5)) 1.5) /\
  FS.tilt_of B (FS.bin_of B 0) = pow (1 / B) 0.5.
Proof.
  intros HB. repeat split.
  - apply clamp_bounds; lra.
  - apply clamp_bounds; lra.
  - intros bin. rewrite !sampleSpectrum_stages.
    unfold FS.sampled_bin at 2. rewrite clamp_id; [reflexivity|].
    apply clamp_bounds; lra.
  - rewrite bin_of_0. unfold FS.sampled_bin. apply clamp_low; lra.
  - rewrite bin_of_1. unfold FS.sampled_bin. apply clamp_high; lra.
  - intros A vUV Hr. apply main_inside. exact Hr.
  - rewrite bin_of_0. unfold FS.tilt_of. f_equal. lra.
Qed.

Lemma bin_clamp_scope_witness :
  FS.sampled_bin 1024 (FS.bin_of 1024 0) = 1 /\
  FS.sampled_bin 1024 (FS.bin_of 1024 1) = 1024 - 1.
Proof.
  destruct (bin_clamp_scope true GL.fresh_texture 1024 ltac:(lra))
    as (_ & _ & _ & H0 & H1 & _).
  split; [exact H0 | exact H1].
Defined.

(** ** The noise gate *)



Lemma radius_example : FS.radius_of (800, 600) (0.5, 0.6) = 0.2.
Proof.
  unfold FS.radius_of, FS.polarUV_of, length. cbn [fst snd].
  replace (_ + _) with (0.2 * 0.2) by lra.
  apply sqrt_square. lra.
Qed.



(** ** The ring pattern *)

Lemma smoothstep_range e0 e1 x : 0 <= smoothstep e0 e1 x <= 1.
Proof.
  unfold smoothstep.
  pose proof (clamp_bounds ((x - e0) / (e1 - e0)) 0 1 ltac:(lra)) as [H0 H1].
  set (s := clamp _ 0 1) in *.
  assert (0 <= s * s * (3 - 2 * s)).
  { apply Rmult_le_pos; [apply Rmult_le_pos|]; lra. }
  assert (0 <= (1 - s) * (1 - s) * (1 + 2 * s)).
  { apply Rmult_le_pos; [apply Rmult_le_pos|]; lra. }
  split; lra.
Qed.

(** [smoothstep] reaches 1 exactly where its clamped argument does. *)
Lemma smoothstep_eq_1 e0 e1 x :
  smoothstep e0 e1 x = 1 <-> 1 <= (x - e0) / (e1 - e0).
Proof.
  unfold smoothstep. set (q := (x - e0) / (e1 - e0)).
  split.
  - intros H. destruct (Rle_dec 1 q) as [|Hn]; [assumption|exfalso].
    assert (Hq : q < 1) by lra.
    pose proof (clamp_bounds q 0 1 ltac:(lra)) as [H0 H1].
    assert (Hc : clamp q 0 1 < 1).
    { unfold clamp, Rmin, Rmax.
      destruct (Rle_dec q 0); destruct (Rle_dec _ 1); lra. }
    set (s := clamp q 0 1) in *.
    assert (0 < (1 - s) * (1 - s) * (1 + 2 * s)).
    { apply Rmult_lt_0_compat; [apply Rmult_lt_0_compat|]; lra. }
    lra.
  - intros H. rewrite clamp_high by lra. lra.
Qed.

Lemma fract_range x : 0 <= fract x < 1.
Proof. unfold fract. pose proof (Zfloor_bound x). lra. Qed.

Lemma ring_of_range radius count : 0 <= FS.ring_of radius count <= 1.
Proof. apply smoothstep_range. Qed.

(** The un-faded ring is at its maximum 1 exactly where radius * count is
    an integer. *)
Lemma ring_of_max radius count :
  FS.ring_of radius count = 1 <-> fract (radius * count) = 0.
Proof.
  unfold FS.ring_of. cbv zeta. rewrite smoothstep_eq_1.
  pose proof (fract_range (radius * count)) as [H0 H1].
  set (t := fract (radius * count)) in *.
  replace ((Rmin t (1 - t) - 0.02) / (0 - 0.02)) with (1 - 50 * Rmin t (1 - t))
    by lra.
  unfold Rmin. destruct (Rle_dec t (1 - t)); split; intros; lra.
Qed.

Lemma rangeRings_stages radius count :
  FS.rangeRings radius count = FS.ring_of radius count * smoothstep 1 0 radius.
Proof. reflexivity. Qed.

Lemma rangeRings_nonneg radius count : 0 <= FS.rangeRings radius count.
Proof.
  rewrite rangeRings_stages.
  apply Rmult_le_pos; [apply ring_of_range | apply smoothstep_range].
Qed.

(** Within the period [j/5, (j+1)/5) the maximum is reached at j/5 only. *)
Lemma ring_of_period (j : Z) radius :
  IZR j / 5 <= radius < (IZR j + 1) / 5 ->
  (FS.ring_of radius 5 = 1 <-> radius = IZR j / 5).
Proof.
  intros [Hl Hu]. rewrite ring_of_max.
  assert (Hf : Zfloor (radius * 5) = j) by (apply Zfloor_eq; lra).
  unfold fract. rewrite Hf. split; intros; lra.
Qed.

Lemma ring_maxima_NoDup : NoDup ring_maxima.
Proof.
  unfold ring_maxima.
  repeat (constructor; [simpl; intros H; decompose [or] H; lra|]).
  constructor.
Qed.

(** The centre of the disc, radius 0, starts the first period: the
    un-faded ring is at its maximum there. *)
Lemma ring_at_centre : FS.ring_of 0 5 = 1.
Proof. apply (ring_of_period 0 0); lra. Qed.

Lemma ring_maxima_closed_NoDup : NoDup ring_maxima_closed.
Proof.
  unfold ring_maxima_closed, ring_maxima.
  repeat (constructor; [simpl; intros H; decompose [or] H; lra|]).
  constructor.
Qed.

(** The fade leaves the ring at the centre at full strength and removes the
    one on the rim. *)
Lemma rangeRings_centre : FS.rangeRings 0 5 = 1.
Proof.
  rewrite rangeRings_stages, ring_at_centre.
  unfold smoothstep. rewrite clamp_high by lra. lra.
Qed.

Lemma rangeRings_rim : FS.rangeRings 1 5 = 0.
Proof.
  rewrite rangeRings_stages.
  unfold smoothstep. rewrite clamp_low by lra. lra.
Qed.

(** C8, as stated, fails: as radius sweeps from 0 to 1 the un-faded ring
    for count = 5 is at its maximum 1 at six distinct radii, 0, 1/5, 2/5,
    3/5, 4/5 and 1, not at five. *)
Lemma ring_six_maxima_counterexample :
  Forall (fun radius => 0 <= radius <= 1 /\ FS.ring_of radius 5 = 1)
    ring_maxima_closed /\
  NoDup ring_maxima_closed /\
  List.length ring_maxima_closed = 6%nat /\
  List.length ring_maxima_closed <> 5%nat.
Proof.
  split.
  - unfold ring_maxima_closed, ring_maxima.
    repeat (apply Forall_cons; [split; [lra|]|]); [| | | | | |apply Forall_nil].
    + apply (ring_of_period 0); lra.
    + apply (ring_of_period 1); lra.
    + apply (ring_of_period 2); lra.
    + apply (ring_of_period 3); lra.
    + apply (ring_of_period 4); lra.
    + apply (ring_of_period 5); lra.
  - split; [exact ring_maxima_closed_NoDup|].
    split; [reflexivity | discriminate].
Qed.

(** C8 (amended): [rangeRings] is smoothstep(0.02, 0, min(t, 1-t)) with
    t = fract(radius * count), times the fade smoothstep(1, 0, radius).  For
    count = 5 the un-faded ring never exceeds 1 and, as radius sweeps from 0
    to 1 with both ends included, reaches 1 at exactly the six radii 0, 1/5,
    2/5, 3/5, 4/5 and 1: at the start of each of the five periods of t, and
    at the end point radius 1 where a sixth period starts.  Without the end
    point 1 these are five, without both end points four.  The fade then
    leaves the maximum at radius 0 at full strength and reduces the one at
    radius 1 to zero. *)
Theorem ring_maxima_closed_sweep :
  (forall radius count,
     FS.rangeRings radius count =
     smoothstep 0.02 0 (Rmin (fract (radius * count)) (1 - fract (radius * count)))
     * smoothstep 1 0 radius) /\
  (forall radius, FS.ring_of radius 5 <= 1) /\
  (forall radius, 0 <= radius <= 1 ->
     (FS.ring_of radius 5 = 1 <-> In radius ring_maxima_closed)) /\
  (forall (j : Z) radius, IZR j / 5 <= radius < (IZR j + 1) / 5 ->
     (FS.ring_of radius 5 = 1 <-> radius = IZR j / 5)) /\
  NoDup ring_maxima_closed /\ List.length ring_maxima_closed = 6%nat /\
  (forall radius, 0 <= radius < 1 ->
     (FS.ring_of radius 5 = 1 <-> In radius [0; 1 / 5; 2 / 5; 3 / 5; 4 / 5])) /\
  (forall radius, 0 < radius < 1 ->
     (FS.ring_of radius 5 = 1 <-> In radius [1 / 5; 2 / 5; 3 / 5; 4 / 5])) /\
  FS.rangeRings 0 5 = 1 /\ FS.rangeRings 1 5 = 0.
Proof.
  assert (Hclosed : forall radius, 0 <= radius <= 1 ->
    (FS.ring_of radius 5 = 1 <-> In radius ring_maxima_closed)).
  { intros radius [H0 H1].
    set (j := Zfloor (radius * 5)).
    pose proof (Zfloor_bound (radius * 5)) as Hj. fold j in Hj.
    clearbody j.
    assert (Hjr : (0 <= j <= 5)%Z).
    { assert (-1 < j)%Z by (apply lt_IZR; lra).
      assert (j <= 5)%Z by (apply le_IZR; lra).
      lia. }
    rewrite (ring_of_period j) by lra.
    unfold ring_maxima_closed, ring_maxima. simpl.
    assert (Hcases : (j = 0 \/ j = 1 \/ j = 2 \/ j = 3 \/ j = 4 \/ j = 5)%Z) by lia.
    split.
    + intros ->.
      destruct Hcases as [E|[E|[E|[E|[E|E]]]]]; subst j; simpl in *.
      * left; lra.
      * right; left; lra.
      * right; right; left; lra.
      * right; right; right; left; lra.
      * right; right; right; right; left; lra.
      * right; right; right; right; right; left; lra.
    + intros Hin.
      destruct Hcases as [E|[E|[E|[E|[E|E]]]]]; subst j; simpl in *;
        decompose [or] Hin; try lra; contradiction. }
  split; [reflexivity|].
  split; [intros; apply ring_of_range|].
  split; [exact Hclosed|].
  split; [exact ring_of_period|].
  split; [exact ring_maxima_closed_NoDup|].
  split; [reflexivity|].
  split.
  { intros radius Hr. rewrite (Hclosed radius) by lra.
    unfold ring_maxima_closed, ring_maxima. simpl.
    split; intros Hin; decompose [or] Hin; try lra; try contradiction; auto 10. }
  split.
  { intros radius Hr. rewrite (Hclosed radius) by lra.
    unfold ring_maxima_closed, ring_maxima. simpl.
    split; intros Hin; decompose [or] Hin; try lra; try contradiction; auto 10. }
  split; [exact rangeRings_centre | exact rangeRings_rim].
Qed.

Lemma ring_maxima_closed_sweep_witness :
  (FS.ring_of 0 5 = 1 /\ FS.ring_of 1 5 = 1) /\ FS.ring_of (1 / 10) 5 <> 1.
Proof.
  destruct ring_maxima_closed_sweep as (_ & _ & Hset & Hper & _).
  split; [split|].
  - apply (Hset 0); [lra | simpl; left; reflexivity].
  - apply (Hset 1); [lra | simpl; auto 10].
  - intros H. apply (Hper 0%Z (1 / 10)) in H; lra.
Defined.

(** ** The mask and the alpha channel *)

Lemma alpha_of_fragColor m t B radius bin :
  a (FS.fragColor_of m t B radius bin) = 1 + FS.rangeRings radius 5.
Proof. reflexivity. Qed.

Lemma rangeRings_example : FS.rangeRings 0.2 5 = 0.896.
Proof.
  rewrite rangeRings_stages.
  assert (Hr : FS.ring_of 0.2 5 = 1) by (apply (ring_of_period 1 0.2); lra).
  rewrite Hr. unfold smoothstep.
  rewrite clamp_id by (split; lra). lra.
Qed.

(** C9, as stated, fails: the pixel vUV = (0.5, 0.6) lies inside the mask
    (radius 0.2, on the first ring); the ring term 0.896 is added to all
    four components of [fragColor], so its alpha is 1.896, not 1. *)
Lemma alpha_not_one_counterexample :
  FS.radius_of (800, 600) (0.5, 0.6) <= 1 /\
  option_map a
    (FS.main true (texture_of (repeat x00 1024)) 1024 (800, 600) (0.5, 0.6))
  = Some 1.896 /\
  1.896 <> 1.
Proof.
  rewrite main_stages, radius_example.
  destruct (Rlt_dec 1 0.2); [lra|].
  cbn [option_map]. rewrite alpha_of_fragColor, rangeRings_example.
  repeat split; try lra. f_equal. lra.
Qed.

(** A corner of a 800 x 600 surface is outside the mask. *)
Lemma corner_discarded m t B : FS.main m t B (800, 600) (0, 0) = None.
Proof.
  rewrite main_stages.
  destruct (Rlt_dec 1 (FS.radius_of (800, 600) (0, 0))) as [|Hn];
    [reflexivity | exfalso; apply Hn].
  unfold FS.radius_of, FS.polarUV_of, length. cbn [fst snd].
  rewrite Rmax_right by lra.
  rewrite <- sqrt_1 at 1. apply sqrt_lt_1_alt. lra.
Qed.

(** C9 (amended): every pixel with aspect-corrected radius > 1 is discarded
    and produces no output.  For every pixel inside the mask the alpha
    component of [fragColor] is 1 + rangeRings(radius, 5): the ring term is
    added to alpha as to the colour channels.  It is never below 1, so it is
    the fully-opaque value 1 once clamped to [0, 1] as the framebuffer
    stores it, and exactly 1 wherever the ring term is 0. *)
Theorem mask_and_alpha m t B A vUV :
  (1 < FS.radius_of A vUV -> FS.main m t B A vUV = None) /\
  (FS.radius_of A vUV <= 1 ->
   exists c, FS.main m t B A vUV = Some c /\
     a c = 1 + FS.rangeRings (FS.radius_of A vUV) 5 /\
     1 <= a c /\ clamp (a c) 0 1 = 1 /\
     (FS.rangeRings (FS.radius_of A vUV) 5 = 0 -> a c = 1)).
Proof.
  split; intros H.
  - rewrite main_stages.
    destruct (Rlt_dec 1 (FS.radius_of A vUV)); [reflexivity | lra].
  - rewrite main_inside by exact H.
    eexists. split; [reflexivity|].
    rewrite alpha_of_fragColor.
    pose proof (rangeRings_nonneg (FS.radius_of A vUV) 5).
    repeat split; [lra | apply clamp_high; lra | intros ->; lra].
Qed.

Lemma mask_and_alpha_witness :
  exists c,
    FS.main true (texture_of (repeat x00 1024)) 1024 (800, 600) (0.5, 0.6)
    = Some c /\ clamp (a c) 0 1 = 1.
Proof.
  destruct (mask_and_alpha true (texture_of (repeat x00 1024)) 1024 (800, 600)
              (0.5, 0.6)) as [_ H].
  destruct H as (c & Hc & _ & _ & Hk & _).
  - rewrite radius_example. lra.
  - exists c. split; assumption.
Defined.

End ShadingFacts.

(** * Properties of the host program *)

Section HostFacts.

(** ** GL commands on a bound texture *)

Lemma update_bound_bound f c n t :
  texture_binding_2d c (active_texture c) = Some n ->
  textures c n = Some t ->
  update_bound f c =
  set_textures (upd (textures c) n (Some (f t))) (next_texture c) c.
Proof.
  intros Hb Ht. unfold update_bound, bound_texture. rewrite Hb, Ht. reflexivity.
Qed.

Lemma upd_same {A} (f : nat -> A) k v : upd f k v k = v.
Proof. unfold upd. rewrite Nat.eqb_refl. reflexivity. Qed.

(** [createSpectrumTexture] leaves a zero-filled [bins] x 1 texture with
    edge clamping and linear filtering under the name it returns, and
    touches nothing else the frame loop reads. *)
Lemma createSpectrumTexture_spec bins c :
  0 <= bins ->
  fst (createSpectrumTexture bins c) = next_texture c /\
  textures (snd (createSpectrumTexture bins c)) (next_texture c) =
    Some (GL.mkTexture bins 1 GL.CLAMP_TO_EDGE GL.CLAMP_TO_EDGE GL.LINEAR GL.LINEAR
            (repeat x00 (Z.to_nat (bins * 1)))) /\
  uniforms (snd (createSpectrumTexture bins c)) = uniforms c /\
  current_program (snd (createSpectrumTexture bins c)) = current_program c /\
  framebuffer (snd (createSpectrumTexture bins c)) = framebuffer c /\
  viewport (snd (createSpectrumTexture bins c)) = viewport c /\
  gl_error (snd (createSpectrumTexture bins c)) = gl_error c.
Proof.
  intros Hb.
  assert (E : (bins <? 0) = false) by lia.
  unfold createSpectrumTexture, gl_createTexture.
  set (n := next_texture c).
  set (c1 := gl_bindTexture (Some n) _).
  assert (B1 : texture_binding_2d c1 (active_texture c1) = Some n)
    by apply upd_same.
  assert (T1 : textures c1 n = Some GL.fresh_texture) by apply upd_same.
  set (c2 := gl_pixelStorei_UNPACK_ALIGNMENT 1 c1).
  unfold gl_texParameteri, gl_texImage2D_null. rewrite E. cbn [orb].
  rewrite (update_bound_bound _ c2 n _ B1 T1).
  set (c3 := set_textures _ _ c2).
  rewrite (update_bound_bound _ c3 n _ B1 (upd_same _ _ _)).
  set (c4 := set_textures _ _ c3).
  rewrite (update_bound_bound _ c4 n _ B1 (upd_same _ _ _)).
  set (c5 := set_textures _ _ c4).
  rewrite (update_bound_bound _ c5 n _ B1 (upd_same _ _ _)).
  set (c6 := set_textures _ _ c5).
  rewrite (update_bound_bound _ c6 n _ B1 (upd_same _ _ _)).
  cbn [fst snd].
  split; [reflexivity|]. split; [apply upd_same|]. repeat split.
Qed.

Lemma map_seq_nth {A} (l : list A) d :
  map (fun p => nth p l d) (seq 0 (List.length l)) = l.
Proof.
  induction l as [|x l IH]; [reflexivity|].
  cbn [List.length seq map nth]. f_equal.
  rewrite <- seq_shift, map_map. exact IH.
Qed.

Lemma getByteFrequencyData_full data n array :
  Z.of_nat (List.length array) <= n ->
  getByteFrequencyData data n array = map data (seq 0 (List.length array)).
Proof.
  intros H. unfold getByteFrequencyData.
  apply map_ext_in. intros i Hi. apply in_seq in Hi.
  replace (Z.of_nat i <? n) with true by lia. reflexivity.
Qed.

Lemma getByteFrequencyData_length data n array :
  List.length (getByteFrequencyData data n array) = List.length array.
Proof. unfold getByteFrequencyData. rewrite length_map, length_seq. reflexivity. Qed.

Lemma sub_image_full t stride src :
  GL.tex_width t = Z.of_nat (List.length src) ->
  List.length (GL.tex_data t) = List.length src ->
  sub_image t 0 0 (GL.tex_width t) 1 stride src = src.
Proof.
  intros Hw Hl. unfold sub_image. rewrite Hl.
  rewrite <- (map_seq_nth src x00) at 2.
  apply map_ext_in. intros p Hp. apply in_seq in Hp.
  rewrite Hw.
  rewrite Z.mod_small, Z.div_small by lia.
  replace (0 <=? Z.of_nat p) with true by lia.
  replace (Z.of_nat p <? 0 + Z.of_nat (List.length src)) with true by lia.
  cbn. rewrite Z.sub_0_r, Nat2Z.id. reflexivity.
Qed.

(** ** [resizeCanvas] *)

(** A resize changes the canvas size and the viewport and nothing else: not
    the textures, not the uniforms, not the module variables. *)
Lemma resizeCanvas_frame s :
  session (resizeCanvas s) = session s /\
  okButton (resizeCanvas s) = okButton s /\
  raf_pending (resizeCanvas s) = raf_pending s /\
  analyser_data (resizeCanvas s) = analyser_data s /\
  textures (context (resizeCanvas s)) = textures (context s) /\
  uniforms (context (resizeCanvas s)) = uniforms (context s) /\
  framebuffer (context (resizeCanvas s)) = framebuffer (context s).
Proof.
  unfold resizeCanvas. cbv zeta.
  destruct (negb _ || negb _); [|repeat split].
  unfold gl_viewport. destruct (_ || _); repeat split.
Qed.

(** Rounding to the nearest double and flooring. *)

Lemma round_half_even_ge n d : 0 < d -> n / d <= round_half_even n d.
Proof.
  intros Hd. unfold round_half_even. cbv zeta.
  destruct (2 * (n mod d) <? d); [lia|].
  destruct (d <? 2 * (n mod d)); [lia|].
  destruct (Z.even (n / d)); lia.
Qed.

Lemma round_half_even_le n d i : 0 < d -> n <= i * d -> round_half_even n d <= i.
Proof.
  intros Hd Hn.
  pose proof (Z.div_mod n d ltac:(lia)) as E.
  pose proof (Z.mod_pos_bound n d Hd) as Hr.
  unfold round_half_even. cbv zeta.
  destruct (Z.ltb_spec (2 * (n mod d)) d) as [H|H].
  - nia.
  - assert (n / d + 1 <= i) by nia.
    destruct (d <? 2 * (n mod d)); [lia|].
    destruct (Z.even (n / d)); lia.
Qed.

Lemma binade_le a b :
  0 < a -> 0 < b -> 0 <= binade a b -> b * 2 ^ binade a b <= a.
Proof.
  intros Ha Hb. unfold binade. cbv zeta.
  pose proof (Z.log2_spec a Ha) as [La _].
  pose proof (Z.log2_spec b Hb) as [_ Lb].
  pose proof (Z.log2_nonneg a). pose proof (Z.log2_nonneg b).
  set (k := Z.log2 a - Z.log2 b) in *.
  destruct (Z.leb_spec 0 k) as [Hk|Hk].
  - destruct (Z.leb_spec (b * 2 ^ k) a) as [H1|H1]; [intros; exact H1|].
    intros Hk1.
    assert (E : 2 ^ Z.log2 a = 2 ^ Z.succ (Z.log2 b) * 2 ^ (k - 1)).
    { rewrite <- Z.pow_add_r by lia. f_equal. lia. }
    assert (0 < 2 ^ (k - 1)) by (apply Z.pow_pos_nonneg; lia).
    nia.
  - destruct (b <=? a * 2 ^ (- k)); lia.
Qed.

Lemma binade_small a b :
  0 < a -> 0 < b -> a < 2 ^ 53 * b -> binade a b - 52 <= 0.
Proof.
  intros Ha Hb H.
  destruct (Z.le_gt_cases (binade a b) 52) as [|Hk]; [lia|exfalso].
  pose proof (binade_le a b Ha Hb ltac:(lia)) as Hle.
  assert (2 ^ 53 <= 2 ^ binade a b) by (apply Z.pow_le_mono_r; lia).
  nia.
Qed.

Lemma floor_double_nonneg a b : 0 <= a -> 0 < b -> 0 <= floor_double a b.
Proof.
  intros Ha Hb. unfold floor_double.
  destruct (a =? 0); [lia|]. cbv zeta.
  set (e := Z.max _ _).
  assert (Hm : 0 <= (if e <=? 0 then round_half_even (a * 2 ^ (- e)) b
                     else round_half_even a (b * 2 ^ e))).
  { destruct (Z.leb_spec e 0).
    - etransitivity; [|apply round_half_even_ge; lia].
      apply Z.div_pos; [|lia]. apply Z.mul_nonneg_nonneg; [lia|].
      apply Z.pow_nonneg; lia.
    - assert (0 < 2 ^ e) by (apply Z.pow_pos_nonneg; lia).
      assert (0 < b * 2 ^ e) by (apply Z.mul_pos_pos; lia).
      etransitivity; [|apply round_half_even_ge; assumption].
      apply Z.div_pos; lia. }
  destruct (Z.leb_spec 0 e).
  - apply Z.mul_nonneg_nonneg; [exact Hm|]. apply Z.pow_nonneg; lia.
  - apply Z.div_pos; [exact Hm|]. apply Z.pow_pos_nonneg; lia.
Qed.

Lemma floor_double_le a b i :
  0 <= a -> 0 < b -> a <= i * b -> i < 2 ^ 53 -> floor_double a b <= i.
Proof.
  intros Ha Hb Hi Hi53. unfold floor_double.
  assert (0 <= i) by nia.
  destruct (Z.eqb_spec a 0) as [|Hne]; [lia|]. cbv zeta.
  pose proof (binade_small a b ltac:(lia) Hb ltac:(nia)) as Hk.
  set (e := Z.max _ _).
  assert (He : e <= 0) by (unfold e; lia).
  assert (He' : -1074 <= e) by (unfold e; lia).
  clearbody e.
  destruct (Z.leb_spec e 0) as [_|]; [|lia].
  assert (Hc : 0 < 2 ^ (- e)) by (apply Z.pow_pos_nonneg; lia).
  assert (Hm : round_half_even (a * 2 ^ (- e)) b <= i * 2 ^ (- e))
    by (apply round_half_even_le; nia).
  destruct (Z.leb_spec 0 e).
  - assert (e = 0) by lia. subst e.
    change (2 ^ (- 0)) with 1 in *. change (2 ^ 0) with 1.
    rewrite !Z.mul_1_r in *. exact Hm.
  - apply Z.div_le_upper_bound; [exact Hc | lia].
Qed.

Lemma floor_double_ge a b :
  0 <= a -> 0 < b -> a < 2 ^ 53 * b -> a / b <= floor_double a b.
Proof.
  intros Ha Hb H53. unfold floor_double.
  destruct (Z.eqb_spec a 0) as [->|Hne]; [cbn; lia|]. cbv zeta.
  pose proof (binade_small a b ltac:(lia) Hb H53) as Hk.
  set (e := Z.max _ _).
  assert (He : e <= 0) by (unfold e; lia).
  clearbody e.
  destruct (Z.leb_spec e 0) as [_|]; [|lia].
  assert (Hc : 0 < 2 ^ (- e)) by (apply Z.pow_pos_nonneg; lia).
  pose proof (round_half_even_ge (a * 2 ^ (- e)) b Hb) as Hm.
  destruct (Z.leb_spec 0 e).
  - assert (e = 0) by lia. subst e.
    change (2 ^ (- 0)) with 1 in *. change (2 ^ 0) with 1.
    rewrite !Z.mul_1_r in *. exact Hm.
  - etransitivity; [|apply Z.div_le_mono; [exact Hc | exact Hm]].
    rewrite Z.div_div by lia.
    rewrite Z.div_mul_cancel_r by lia. lia.
Qed.

Lemma floor_double_integer n b :
  0 <= n < 2 ^ 53 -> 0 < b -> floor_double (n * b) b = n.
Proof.
  intros Hn Hb.
  pose proof (floor_double_le (n * b) b n ltac:(nia) Hb ltac:(lia) ltac:(lia)).
  pose proof (floor_double_ge (n * b) b ltac:(nia) Hb ltac:(nia)) as H1.
  rewrite Z.div_mul in H1 by lia. lia.
Qed.

Lemma floor_scaled_nonneg n r : 0 <= floor_scaled n r.
Proof. unfold floor_scaled. apply floor_double_nonneg; lia. Qed.

Lemma resizeCanvas_tracked s : tracked s -> tracked (resizeCanvas s).
Proof.
  intros (Hv & Hw & Hh & He). unfold resizeCanvas. cbv zeta.
  set (r := if (ratio_num _ <=? _)%N then _ else _).
  pose proof (floor_scaled_nonneg (clientWidth s) r).
  pose proof (floor_scaled_nonneg (clientHeight s) r).
  destruct (negb _ || negb _); [|repeat split; assumption].
  unfold gl_viewport.
  replace (floor_scaled (clientWidth s) r <? 0) with false by lia.
  replace (floor_scaled (clientHeight s) r <? 0) with false by lia.
  repeat split; assumption.
Qed.

Lemma resizeCanvas_ready s : ready s -> ready (resizeCanvas s).
Proof.
  destruct (resizeCanvas_frame s) as (Hs & Hb & _ & _ & Ht & Hu & _).
  unfold ready. rewrite Hs, Hb, Ht, Hu. auto.
Qed.

Lemma resizeCanvas_idle s : idle s -> idle (resizeCanvas s).
Proof.
  destruct (resizeCanvas_frame s) as (Hs & Hb & Hr & _).
  unfold idle. rewrite Hs, Hb, Hr. auto.
Qed.


(** ** One frame *)

(** A full-width upload replaces the whole row. *)
Lemma texSubImage2D_full c n t src :
  texture_binding_2d c (active_texture c) = Some n ->
  textures c n = Some t ->
  GL.tex_width t = Z.of_nat (List.length src) ->
  GL.tex_height t = 1 ->
  List.length (GL.tex_data t) = List.length src ->
  gl_texSubImage2D 0 0 (GL.tex_width t) 1 src c =
  set_textures
    (upd (textures c) n
       (Some (GL.mkTexture (GL.tex_width t) (GL.tex_height t) (GL.tex_wrap_s t)
                (GL.tex_wrap_t t) (GL.tex_min_filter t) (GL.tex_mag_filter t)
                src)))
    (next_texture c) c.
Proof.
  intros Hb Ht Hw Hh Hl.
  unfold gl_texSubImage2D, bound_texture. rewrite Hb, Ht.
  rewrite sub_image_full by assumption.
  replace (GL.tex_width t <? 0 + GL.tex_width t) with false by lia.
  replace (GL.tex_width t <? 0) with false by lia.
  replace (GL.tex_height t <? 0 + 1) with false by lia.
  cbn [orb Z.ltb Z.compare].
  unfold required_bytes.
  destruct ((GL.tex_width t <=? 0) || (1 <=? 0)).
  - replace (Z.of_nat (List.length src) <? 0) with false by lia. reflexivity.
  - replace (Z.of_nat (List.length src) <? _) with false; [reflexivity|].
    symmetry. apply Z.ltb_ge. rewrite Hw. cbn. lia.
Qed.

(** One frame on a running session. *)
Lemma render_ready s :
  ready s ->
  ready (render s) /\ raf_pending (render s) = true /\
  exists ss' d t',
    session (render s) = Some ss' /\
    spectrum ss' = map (analyser_data s) (seq 0 1024) /\
    framebuffer (context (render s)) =
      Draw d :: Clear (0, 0, 0, 1) :: framebuffer (context s) /\
    d_texture d = Some t' /\
    GL.tex_data t' = spectrum ss' /\
    spectrum_texture t' 1024 /\
    d_uniforms d = uniforms (context s) /\
    d_viewport d = viewport (context (resizeCanvas s)) /\
    viewport (context (render s)) = viewport (context (resizeCanvas s)) /\
    gl_error (context (render s)) = gl_error (context (resizeCanvas s)) /\
    canvas_width (render s) = canvas_width (resizeCanvas s) /\
    canvas_height (render s) = canvas_height (resizeCanvas s).
Proof.
  intros Hr.
  destruct (resizeCanvas_frame s) as (Hs & Hb & _ & Ha & Ht & Hu & Hf).
  destruct Hr as (Hok & ss & t & Hss & Hfft & Hbins & Hlen & Htex & Hst & Hus & Hub).
  destruct Hst as (Hw & Hh & Hws & Hwt & Hmin & Hmag & Hdl).
  unfold render. cbv zeta. rewrite Hs, Hss, Ha, Hfft.
  set (s1 := resizeCanvas s) in *.
  set (snap := getByteFrequencyData (analyser_data s) (2048 / 2) (spectrum ss)).
  assert (Hsl : List.length snap = 1024%nat).
  { unfold snap. rewrite getByteFrequencyData_length. exact Hlen. }
  assert (Hsnap : snap = map (analyser_data s) (seq 0 1024)).
  { unfold snap. rewrite getByteFrequencyData_full by (rewrite Hlen; cbn; lia).
    rewrite Hlen. reflexivity. }
  set (n := spectrumTexture ss) in *.
  set (c1 := gl_bindTexture (Some n) (gl_activeTexture 0 (context s1))).
  assert (B1 : texture_binding_2d c1 (active_texture c1) = Some n) by reflexivity.
  assert (T1 : textures c1 n = Some t) by (rewrite <- Htex, <- Ht; reflexivity).
  rewrite Hbins.
  replace (gl_texSubImage2D 0 0 1024 1 snap c1)
    with (gl_texSubImage2D 0 0 (GL.tex_width t) 1 snap c1)
    by (rewrite Hw; reflexivity).
  rewrite (texSubImage2D_full c1 n t snap B1 T1)
    by (rewrite ?Hw, ?Hh, ?Hdl, ?Hsl; reflexivity).
  set (t' := GL.mkTexture _ _ _ _ _ _ snap).
  set (c2 := set_textures _ _ c1).
  assert (T2 : textures c2 n = Some t') by apply upd_same.
  assert (U2 : uniforms c2 = uniforms (context s)) by (rewrite <- Hu; reflexivity).
  assert (St' : spectrum_texture t' 1024).
  { unfold spectrum_texture, t'. cbn. rewrite Hsl. tauto. }
  set (c3 := gl_bindVertexArray true _).
  assert (P3 : current_program c3 = true) by reflexivity.
  assert (B3 : texture_binding_2d c3 0%nat = Some n) by reflexivity.
  assert (T3 : textures c3 n = Some t') by exact T2.
  assert (U3 : uniforms c3 = uniforms (context s)) by exact U2.
  assert (V3 : viewport c3 = viewport (context s1)) by reflexivity.
  assert (F3 : framebuffer c3 = Clear (0, 0, 0, 1) :: framebuffer (context s))
    by (rewrite <- Hf; reflexivity).
  assert (D : gl_drawArrays c3 =
              push_fb (Draw (mkDrawCall (viewport (context s1))
                               (uniforms (context s)) (Some t'))) c3).
  { unfold gl_drawArrays, bound_texture.
    rewrite P3, U3, Hus. cbn [Z.to_nat]. rewrite B3, T3, V3. reflexivity. }
  rewrite D.
  split; [|split; [reflexivity|]].
  - split; [cbn; rewrite <- Hok; exact Hb|].
    exists (mkSession 2048 1024 snap n), t'.
    cbn [session set_raf_pending set_session set_context context
         analyzer_fftSize bins spectrum spectrumTexture
         gl_bindVertexArray set_vertex_array_binding push_fb textures uniforms].
    rewrite T3, U3. repeat split; auto.
  - exists (mkSession 2048 1024 snap n),
      (mkDrawCall (viewport (context s1)) (uniforms (context s)) (Some t')), t'.
    cbn [session set_raf_pending set_session set_context context
         analyzer_fftSize bins spectrum spectrumTexture
         gl_bindVertexArray set_vertex_array_binding push_fb framebuffer
         d_texture d_uniforms d_viewport].
    rewrite F3. repeat split; auto.
Qed.

(** ** The click handler and the event loop *)

Lemma onClick_granted s :
  idle s ->
  ready (onClick true s) /\ raf_pending (onClick true s) = true /\
  val_uAspect (uniforms (context (onClick true s))) =
    (canvas_width s, canvas_height s) /\
  canvas_width (onClick true s) = canvas_width s /\
  canvas_height (onClick true s) = canvas_height s /\
  viewport (context (onClick true s)) = viewport (context s) /\
  gl_error (context (onClick true s)) = gl_error (context s) /\
  framebuffer (context (onClick true s)) = framebuffer (context s).
Proof.
  intros (Hok & Hs & Hr).
  unfold onClick. rewrite Hok.
  change (initAudioAnalyzer true) with (Some (2048, 1024, repeat x00 1024)).
  cbv iota beta.
  destruct (createSpectrumTexture_spec 1024 (context s) ltac:(lia))
    as (Hn & Ht & Hu & Hp & Hf & Hv & He).
  destruct (createSpectrumTexture 1024 (context s)) as [n c].
  cbn [fst snd] in *. subst n.
  set (c1 := gl_uniform2f _ _ _ _).
  assert (U : uniforms c1 =
              mkUniforms 0 1024 (canvas_width s, canvas_height s)) by reflexivity.
  assert (T : textures c1 = textures c) by reflexivity.
  assert (V : viewport c1 = viewport c) by reflexivity.
  assert (E : gl_error c1 = gl_error c) by reflexivity.
  assert (F : framebuffer c1 = framebuffer c) by reflexivity.
  clearbody c1.
  cbn [context set_raf_pending set_okButton set_session set_context
       raf_pending canvas_width canvas_height].
  rewrite U, V, E, F, Hv, He, Hf. cbn [val_uAspect].
  repeat split.
  exists (mkSession 2048 1024 (repeat x00 1024) (next_texture (context s))).
  eexists.
  cbn [session set_raf_pending set_okButton set_session set_context context
       analyzer_fftSize bins spectrum spectrumTexture].
  rewrite T, Ht, U. cbn [val_uSpectrum val_uBins].
  repeat split.
Qed.

Lemma onClick_other granted s :
  (granted = false \/ okButton s = false) -> onClick granted s = s.
Proof.
  intros [-> | H]; unfold onClick.
  - destruct (okButton s); reflexivity.
  - rewrite H. reflexivity.
Qed.

Lemma step_inv e s : inv s -> inv (step e s).
Proof.
  intros [Ht Hs]. destruct e as [cw ch dpr | data | granted |]; cbn [step].
  - split.
    + apply resizeCanvas_tracked. exact Ht.
    + destruct Hs; [left; apply resizeCanvas_idle | right; apply resizeCanvas_ready];
        assumption.
  - split; [exact Ht | exact Hs].
  - destruct granted, Hs as [Hi | Hr].
    + destruct (onClick_granted s Hi) as (R & _ & _ & Hw & Hh & Hv & He & _).
      split; [|right; exact R].
      destruct Ht as (? & ? & ? & ?).
      unfold tracked. rewrite Hw, Hh, Hv, He. auto.
    + rewrite onClick_other by (right; apply Hr). split; auto.
    + rewrite onClick_other by (left; reflexivity). split; auto.
    + rewrite onClick_other by (left; reflexivity). split; auto.
  - destruct (raf_pending s) eqn:Hp; [|split; assumption].
    destruct Hs as [(_ & _ & Hi) | Hr]; [congruence|].
    assert (Hr' : ready (set_raf_pending false s)) by exact Hr.
    assert (Ht' : tracked (set_raf_pending false s)) by exact Ht.
    destruct (render_ready _ Hr') as (R & _ & ss' & d & t' & _ & _ & _ & _ & _ & _ & _ & _
                                      & Hv & He & Hw & Hh).
    split; [|right; exact R].
    apply resizeCanvas_tracked in Ht'.
    destruct Ht' as (? & ? & ? & ?).
    unfold tracked. rewrite Hw, Hh, Hv, He. auto.
Qed.

Lemma boot_inv width height cw ch dpr : inv (boot width height cw ch dpr).
Proof.
  split.
  - unfold tracked. cbn. repeat split; lia.
  - left. repeat split.
Qed.

Lemma run_inv es s : inv s -> inv (run es s).
Proof.
  revert s. induction es as [|e es IH]; intros s H; [exact H|].
  cbn. apply IH, step_inv, H.
Qed.

Lemma pending_ready s : inv s -> raf_pending s = true -> ready s.
Proof.
  intros [_ [(_ & _ & Hi) | Hr]] Hp; [congruence | exact Hr].
Qed.

(** ** The uniforms after the click *)

Lemma gl_texSubImage2D_uniforms x y w h src c :
  uniforms (gl_texSubImage2D x y w h src c) = uniforms c.
Proof.
  unfold gl_texSubImage2D.
  destruct (bound_texture _ c) as [[n t]|]; [|reflexivity].
  destruct (_ || _); [reflexivity|].
  destruct (_ <? _); reflexivity.
Qed.

Lemma gl_drawArrays_uniforms c : uniforms (gl_drawArrays c) = uniforms c.
Proof. unfold gl_drawArrays. destruct (current_program c); reflexivity. Qed.

(** No frame writes a uniform. *)
Lemma render_uniforms s :
  uniforms (context (render s)) = uniforms (context s).
Proof.
  destruct (resizeCanvas_frame s) as (_ & _ & _ & _ & _ & Hu & _).
  unfold render. cbv zeta.
  destruct (session (resizeCanvas s)) as [ss|]; [|exact Hu].
  cbn [context set_raf_pending set_session set_context].
  set (c1 := gl_bindTexture _ _).
  set (c2 := gl_texSubImage2D _ _ _ _ _ c1).
  set (c3 := gl_bindVertexArray true _).
  transitivity (uniforms (gl_drawArrays c3)); [reflexivity|].
  rewrite gl_drawArrays_uniforms.
  transitivity (uniforms c2); [reflexivity|].
  unfold c2. rewrite gl_texSubImage2D_uniforms.
  exact Hu.
Qed.

Lemma step_ready e s : ready s -> ready (step e s).
Proof.
  intros Hr. destruct e as [cw ch dpr | data | granted |]; cbn [step].
  - apply resizeCanvas_ready. exact Hr.
  - exact Hr.
  - rewrite onClick_other by (right; apply Hr). exact Hr.
  - destruct (raf_pending s); [|exact Hr].
    assert (Hr' : ready (set_raf_pending false s)) by exact Hr.
    apply (render_ready _ Hr').
Qed.

Lemma step_uniforms e s :
  ready s -> uniforms (context (step e s)) = uniforms (context s).
Proof.
  intros Hr. destruct e as [cw ch dpr | data | granted |]; cbn [step].
  - destruct (resizeCanvas_frame (set_layout cw ch dpr s))
      as (_ & _ & _ & _ & _ & Hu & _).
    exact Hu.
  - reflexivity.
  - rewrite onClick_other by (right; apply Hr). reflexivity.
  - destruct (raf_pending s); [|reflexivity].
    apply (render_uniforms (set_raf_pending false s)).
Qed.

(** Once the click handler has run, [uAspect] keeps the size the canvas had
    at the click, whatever is laid out, heard or drawn afterwards. *)
Lemma uAspect_frozen es s :
  idle s ->
  val_uAspect (uniforms (context (run es (onClick true s)))) =
  (canvas_width s, canvas_height s).
Proof.
  intros Hi.
  destruct (onClick_granted s Hi) as (Hr & _ & Hu & _).
  rewrite <- Hu. clear Hu.
  generalize dependent (onClick true s). clear s Hi.
  induction es as [|e es IH]; intros s Hr; [reflexivity|].
  cbn [run fold_left]. fold (run es (step e s)).
  rewrite IH by (apply step_ready; exact Hr).
  rewrite step_uniforms by exact Hr. reflexivity.
Qed.

(** ** Frames, as the shader sees them *)

(** What the fragment stage of a frame runs on: the snapshot of that frame
    in a spectrum texture, uBins = 1024, and the [uAspect] the program
    holds. *)
Lemma frame_fragment width height cw ch dpr es :
  let s := run es (boot width height cw ch dpr) in
  raf_pending s = true ->
  exists d t',
    last_draw (context (step AnimationFrame s)) = Some d /\
    spectrum_texture t' 1024 /\
    GL.tex_data t' = map (analyser_data s) (seq 0 1024) /\
    forall m vUV,
      fragment m d vUV =
      FS.main m t' 1024%R
        (IZR (fst (val_uAspect (uniforms (context s)))),
         IZR (snd (val_uAspect (uniforms (context s))))) vUV.
Proof.
  intros s Hp.
  pose proof (run_inv es _ (boot_inv width height cw ch dpr)) as Hinv.
  fold s in Hinv.
  pose proof (pending_ready s Hinv Hp) as Hr.
  cbn [step]. rewrite Hp.
  assert (Hr' : ready (set_raf_pending false s)) by exact Hr.
  destruct (render_ready _ Hr')
    as (_ & _ & ss' & d & t' & _ & H2 & H3 & H4 & H5 & H6 & H7 & _).
  destruct Hr as (_ & ss & t & _ & _ & _ & _ & _ & _ & _ & Hub).
  cbn [context set_raf_pending analyser_data] in *.
  exists d, t'.
  split; [unfold last_draw; rewrite H3; reflexivity|].
  split; [exact H6|]. split; [rewrite H5; exact H2|].
  intros m vUV. unfold fragment. rewrite H4, H7, Hub. reflexivity.
Qed.






(** C1 (the code departs from it): the canvas is 800 x 600 when the click
    handler sets [uAspect]; it is then laid out at 600 x 800.  In the next
    frame the canvas and the viewport are 600 x 800, uBins is still 1024,
    but the [uAspect] the shader reads is still (800, 600): [resizeCanvas]
    never writes the uniform. *)
Theorem resize_leaves_uAspect_stale :
  let s := run [Click true; Layout 600 800 ratio1; AnimationFrame]
             (boot 800 600 800 600 ratio1) in
  (canvas_width s, canvas_height s) = (600, 800) /\
  option_map d_viewport (last_draw (context s)) = Some (0, 0, 600, 800) /\
  option_map (fun d => val_uAspect (d_uniforms d)) (last_draw (context s))
  = Some (800, 600) /\
  option_map (fun d => val_uBins (d_uniforms d)) (last_draw (context s))
  = Some 1024.
Proof. vm_compute. repeat split. Qed.

End HostFacts.

(** * Further properties: start-up *)

Section InitFacts.

Import Stdlib.Strings.String.
Import Init.
Local Open Scope nat_scope.
Local Open Scope string_scope.

Variable glsl_compile : ShaderType -> string -> option string.
Variable glsl_link : list Shader -> option string.

Lemma lookup_fresh {A} name (l : list (nat * A)) :
  (forall n a, In (n, a) l -> n <> name) -> lookup name l = None.
Proof.
  induction l as [|[n a] l IH]; intros H; [reflexivity|].
  cbn. destruct (Nat.eqb_spec n name) as [E|_].
  - exfalso. apply (H n a); [left; reflexivity | exact E].
  - apply IH. intros n' a' Hin. apply (H n' a'). right. exact Hin.
Qed.

Lemma remove_fresh {A} name (l : list (nat * A)) :
  (forall n a, In (n, a) l -> n <> name) -> remove name l = l.
Proof.
  induction l as [|[n a] l IH]; intros H; [reflexivity|].
  unfold remove in *. cbn.
  destruct (Nat.eqb_spec n name) as [E|_].
  - exfalso. apply (H n a); [left; reflexivity | exact E].
  - cbn. f_equal. apply IH. intros n' a' Hin. apply (H n' a'). right. exact Hin.
Qed.

Lemma replace_fresh {A} name (x : A) (l : list (nat * A)) :
  (forall n a, In (n, a) l -> n <> name) -> replace name x l = l.
Proof.
  induction l as [|[n a] l IH]; intros H; [reflexivity|].
  unfold replace in *. cbn.
  destruct (Nat.eqb_spec n name) as [E|_].
  - exfalso. apply (H n a); [left; reflexivity | exact E].
  - f_equal. apply IH. intros n' a' Hin. apply (H n' a'). right. exact Hin.
Qed.

Lemma not_attached_fresh name o :
  (forall n p, In (n, p) (programs o) -> ~ In name (pr_attached p)) ->
  attached_somewhere name o = false.
Proof.
  intros H. unfold attached_somewhere.
  apply not_true_is_false. intros E.
  apply existsb_exists in E. destruct E as ([n p] & Hin & E).
  apply existsb_exists in E. destruct E as (a & Ha & E).
  apply Nat.eqb_eq in E. subst a. exact (H n p Hin Ha).
Qed.

Lemma wf_shader_fresh o :
  well_formed o -> forall n s, In (n, s) (shaders o) -> n <> next_name o.
Proof. intros [H _] n s Hin. destruct (H n s Hin). lia. Qed.

Lemma wf_program_fresh o :
  well_formed o -> forall n p, In (n, p) (programs o) -> n <> next_name o.
Proof. intros [_ H] n p Hin. destruct (H n p Hin). lia. Qed.

Lemma wf_not_attached o :
  well_formed o ->
  forall n p, In (n, p) (programs o) -> ~ In (next_name o) (pr_attached p).
Proof.
  intros [_ H] n p Hin Ha. destruct (H n p Hin) as [_ Hb].
  specialize (Hb _ Ha). lia.
Qed.

Lemma lookup_head {A} n (x : A) l : lookup n ((n, x) :: l) = Some x.
Proof. cbn. rewrite Nat.eqb_refl. reflexivity. Qed.

Lemma replace_head {A} n (x y : A) l :
  (forall n' a, In (n', a) l -> n' <> n) ->
  replace n x ((n, y) :: l) = (n, x) :: l.
Proof.
  intros H. unfold replace. cbn. rewrite Nat.eqb_refl. f_equal.
  apply (replace_fresh n x l H).
Qed.

Lemma remove_head {A} n (y : A) l :
  (forall n' a, In (n', a) l -> n' <> n) ->
  remove n ((n, y) :: l) = l.
Proof.
  intros H. unfold remove. cbn. rewrite Nat.eqb_refl. cbn.
  apply (remove_fresh n l H).
Qed.

(** The three GL calls of [compileShader] on the shader just created. *)
Lemma compile_fresh_shader type src l ps k n :
  (forall n' a, In (n', a) l -> n' <> n) ->
  gl_compileShader glsl_compile n
    (gl_shaderSource n src
       (mkObjects ((n, mkShader type "" false "" false) :: l) ps k)) =
  mkObjects
    ((n, match glsl_compile type src with
         | None => mkShader type src true "" false
         | Some log => mkShader type src false log false
         end) :: l) ps k.
Proof.
  intros H. unfold gl_shaderSource, gl_compileShader.
  cbn [shaders programs next_name]. rewrite lookup_head.
  cbn [shaders programs next_name sh_type sh_source sh_compile_status
       sh_info_log sh_flagged].
  rewrite replace_head by exact H. rewrite lookup_head.
  cbn [shaders programs next_name sh_type sh_source sh_compile_status
       sh_info_log sh_flagged].
  rewrite replace_head by exact H. reflexivity.
Qed.

Lemma delete_unattached_head n s l ps k :
  (forall n' a, In (n', a) l -> n' <> n) ->
  (forall m p, In (m, p) ps -> ~ In n (pr_attached p)) ->
  gl_deleteShader n (mkObjects ((n, s) :: l) ps k) = mkObjects l ps k.
Proof.
  intros Hl Hp. unfold gl_deleteShader.
  cbn [shaders programs next_name]. rewrite lookup_head.
  rewrite not_attached_fresh by exact Hp.
  rewrite remove_head by exact Hl. reflexivity.
Qed.

Lemma compileShader_ok type src o :
  well_formed o -> glsl_compile type src = None ->
  compileShader glsl_compile type src o =
  (Return (next_name o),
   mkObjects ((next_name o, mkShader type src true "" false) :: shaders o)
     (programs o) (S (next_name o))).
Proof.
  intros Hwf Hc.
  unfold compileShader, gl_createShader. cbv zeta.
  rewrite compile_fresh_shader by (apply (wf_shader_fresh o Hwf)).
  unfold gl_COMPILE_STATUS. cbn [shaders]. rewrite lookup_head, Hc.
  reflexivity.
Qed.

Lemma compileShader_fails type src log o :
  well_formed o -> glsl_compile type src = Some log ->
  compileShader glsl_compile type src o =
  (Throw ("Failed to compile shader:" ++ newline ++ log),
   mkObjects (shaders o) (programs o) (S (next_name o))).
Proof.
  intros Hwf Hc.
  unfold compileShader, gl_createShader. cbv zeta.
  rewrite compile_fresh_shader by (apply (wf_shader_fresh o Hwf)).
  unfold gl_COMPILE_STATUS, gl_getShaderInfoLog.
  cbn [shaders]. rewrite lookup_head, Hc.
  cbn [sh_compile_status sh_info_log negb].
  rewrite delete_unattached_head;
    [reflexivity | apply (wf_shader_fresh o Hwf) | apply (wf_not_attached o Hwf)].
Qed.

Lemma filter_all {A} (f : A -> bool) l :
  (forall x, In x l -> f x = true) -> filter f l = l.
Proof.
  induction l as [|x l IH]; intros H; [reflexivity|].
  cbn. rewrite (H x) by (left; reflexivity). f_equal.
  apply IH. intros y Hy. apply H. right. exact Hy.
Qed.

(** The GL calls of [linkProgram] up to the link itself. *)
Lemma link_fresh_program vs fs sv sf o :
  well_formed o ->
  lookup vs (shaders o) = Some sv -> lookup fs (shaders o) = Some sf ->
  gl_linkProgram glsl_link (next_name o)
    (gl_attachShader (next_name o) fs
       (gl_attachShader (next_name o) vs
          (mkObjects (shaders o)
             ((next_name o, mkProgram [] false "") :: programs o)
             (S (next_name o))))) =
  mkObjects (shaders o)
    ((next_name o,
      match glsl_link [sv; sf] with
      | None => mkProgram [vs; fs] true ""
      | Some log => mkProgram [vs; fs] false log
      end) :: programs o)
    (S (next_name o)).
Proof.
  intros Hwf Hv Hf.
  pose proof (wf_program_fresh o Hwf) as Hp.
  unfold gl_attachShader, gl_linkProgram.
  cbn [shaders programs next_name]. rewrite lookup_head, Hv.
  cbn [shaders programs next_name pr_attached pr_link_status pr_info_log app].
  rewrite replace_head by exact Hp. rewrite lookup_head, Hf.
  cbn [shaders programs next_name pr_attached pr_link_status pr_info_log app].
  rewrite replace_head by exact Hp. rewrite lookup_head.
  unfold attached_shaders.
  cbn [shaders programs next_name pr_attached flat_map]. rewrite Hv, Hf.
  cbn [app]. rewrite replace_head by exact Hp. reflexivity.
Qed.

Lemma linkProgram_ok vs fs sv sf o :
  well_formed o ->
  lookup vs (shaders o) = Some sv -> lookup fs (shaders o) = Some sf ->
  glsl_link [sv; sf] = None ->
  linkProgram glsl_link vs fs o =
  (Return (next_name o),
   mkObjects (shaders o)
     ((next_name o, mkProgram [vs; fs] true "") :: programs o)
     (S (next_name o))).
Proof.
  intros Hwf Hv Hf Hl.
  unfold linkProgram, gl_createProgram. cbv zeta.
  rewrite (link_fresh_program vs fs sv sf o Hwf Hv Hf), Hl.
  unfold gl_LINK_STATUS. cbn [programs]. rewrite lookup_head. reflexivity.
Qed.

Lemma linkProgram_fails vs fs sv sf log o :
  well_formed o ->
  lookup vs (shaders o) = Some sv -> lookup fs (shaders o) = Some sf ->
  glsl_link [sv; sf] = Some log ->
  linkProgram glsl_link vs fs o =
  (Throw ("Failed to link gl program:" ++ newline ++ log),
   mkObjects (shaders o) (programs o) (S (next_name o))).
Proof.
  intros Hwf Hv Hf Hl.
  unfold linkProgram, gl_createProgram. cbv zeta.
  rewrite (link_fresh_program vs fs sv sf o Hwf Hv Hf), Hl.
  unfold gl_LINK_STATUS, gl_getProgramInfoLog, gl_deleteProgram.
  cbn [programs shaders next_name]. rewrite lookup_head.
  cbn [pr_link_status pr_info_log negb programs shaders next_name].
  rewrite remove_head by (apply (wf_program_fresh o Hwf)).
  rewrite filter_all; [reflexivity|].
  intros [n s] Hin. destruct Hwf as [Hs _].
  destruct (Hs n s Hin) as [_ Hfl]. cbn. rewrite Hfl. reflexivity.
Qed.

Lemma wf_no_objects : well_formed no_objects.
Proof. split; intros n x []. Qed.

Lemma wf_bump o : well_formed o ->
  well_formed (mkObjects (shaders o) (programs o) (S (next_name o))).
Proof.
  intros [Hs Hp]. split; cbn [shaders programs next_name].
  - intros n s Hin. destruct (Hs n s Hin). split; [lia | assumption].
  - intros n p Hin. destruct (Hp n p Hin) as [H1 H2]. split; [lia|].
    intros a Ha. specialize (H2 a Ha). lia.
Qed.

Lemma wf_new_shader o s :
  well_formed o -> sh_flagged s = false ->
  well_formed (mkObjects ((next_name o, s) :: shaders o) (programs o)
                 (S (next_name o))).
Proof.
  intros Hwf Hf. destruct (wf_bump o Hwf) as [Hs Hp].
  split; [|exact Hp]. cbn [shaders programs next_name] in *.
  intros n x [E | Hin].
  - inversion E; subst. split; [lia | exact Hf].
  - apply Hs. exact Hin.
Qed.

Lemma wf_new_program o l :
  well_formed o -> (forall a, In a l -> (a < next_name o)%nat) ->
  well_formed (mkObjects (shaders o) ((next_name o, mkProgram l true "")
                                        :: programs o) (S (next_name o))).
Proof.
  intros Hwf Hl. destruct (wf_bump o Hwf) as [Hs Hp].
  split; [exact Hs|]. cbn [shaders programs next_name] in *.
  intros n x [E | Hin].
  - inversion E; subst. split; [lia|]. cbn. intros a Ha.
    specialize (Hl a Ha). lia.
  - apply Hp. exact Hin.
Qed.

Lemma lookup_In {A} n (x : A) l : lookup n l = Some x -> In (n, x) l.
Proof.
  induction l as [|[m y] l IH]; [discriminate|].
  cbn. destruct (Nat.eqb_spec m n) as [->|_].
  - intros E. inversion E. left. reflexivity.
  - intros E. right. apply IH. exact E.
Qed.

(** X1: [compileShader] returns the new shader when the source compiles;
    when it does not, it throws "Failed to compile shader:" followed by the
    info log, and the shader it created is deleted again: the live shaders
    are those from before.  Programs are untouched either way. *)
Theorem compileShader_outcome type src o :
  well_formed o ->
  well_formed (snd (compileShader glsl_compile type src o)) /\
  programs (snd (compileShader glsl_compile type src o)) = programs o /\
  match glsl_compile type src with
  | Some log =>
      fst (compileShader glsl_compile type src o) =
        Throw ("Failed to compile shader:" ++ newline ++ log) /\
      shaders (snd (compileShader glsl_compile type src o)) = shaders o
  | None =>
      fst (compileShader glsl_compile type src o) = Return (next_name o) /\
      shaders (snd (compileShader glsl_compile type src o)) =
        (next_name o, mkShader type src true "" false) :: shaders o
  end.
Proof.
  intros Hwf. destruct (glsl_compile type src) as [log|] eqn:Hc.
  - rewrite (compileShader_fails type src log o Hwf Hc). cbn [fst snd].
    split; [apply wf_bump; exact Hwf|]. repeat split.
  - rewrite (compileShader_ok type src o Hwf Hc). cbn [fst snd].
    split; [apply wf_new_shader; [exact Hwf | reflexivity]|]. repeat split.
Qed.

(** X2: [linkProgram] on two live shaders returns a new program with both
    attached when the link succeeds; when it fails it throws "Failed to link
    gl program:" followed by the info log and deletes the program it
    created.  The shaders it was given stay as they were either way. *)
Theorem linkProgram_outcome vs fs sv sf o :
  well_formed o ->
  lookup vs (shaders o) = Some sv -> lookup fs (shaders o) = Some sf ->
  well_formed (snd (linkProgram glsl_link vs fs o)) /\
  shaders (snd (linkProgram glsl_link vs fs o)) = shaders o /\
  match glsl_link [sv; sf] with
  | Some log =>
      fst (linkProgram glsl_link vs fs o) =
        Throw ("Failed to link gl program:" ++ newline ++ log) /\
      programs (snd (linkProgram glsl_link vs fs o)) = programs o
  | None =>
      fst (linkProgram glsl_link vs fs o) = Return (next_name o) /\
      programs (snd (linkProgram glsl_link vs fs o)) =
        (next_name o, mkProgram [vs; fs] true "") :: programs o
  end.
Proof.
  intros Hwf Hv Hf. destruct (glsl_link [sv; sf]) as [log|] eqn:Hl.
  - rewrite (linkProgram_fails vs fs sv sf log o Hwf Hv Hf Hl). cbn [fst snd].
    split; [apply wf_bump; exact Hwf|]. repeat split.
  - rewrite (linkProgram_ok vs fs sv sf o Hwf Hv Hf Hl). cbn [fst snd].
    split; [|repeat split].
    apply wf_new_program; [exact Hwf|].
    destruct Hwf as [Hs _].
    intros a [<- | [<- | []]].
    + apply (Hs vs sv), lookup_In, Hv.
    + apply (Hs fs sf), lookup_In, Hf.
Qed.

Lemma init_table vsSrc fsSrc :
  let V := mkShader VERTEX_SHADER vsSrc true "" false in
  let F := mkShader FRAGMENT_SHADER fsSrc true "" false in
  init glsl_compile glsl_link vsSrc fsSrc no_objects =
  match glsl_compile VERTEX_SHADER vsSrc with
  | Some log =>
      (Throw ("Failed to compile shader:" ++ newline ++ log), mkObjects [] [] 2)
  | None =>
      match glsl_compile FRAGMENT_SHADER fsSrc with
      | Some log =>
          (Throw ("Failed to compile shader:" ++ newline ++ log),
           mkObjects [(1, V)] [] 3)
      | None =>
          match glsl_link [V; F] with
          | Some log =>
              (Throw ("Failed to link gl program:" ++ newline ++ log),
               mkObjects [(2, F); (1, V)] [] 4)
          | None =>
              (Return 3,
               mkObjects
                 [(2, mkShader FRAGMENT_SHADER fsSrc true "" true);
                  (1, mkShader VERTEX_SHADER vsSrc true "" true)]
                 [(3, mkProgram [1; 2] true "")] 4)
          end
      end
  end.
Proof.
  intros V F. unfold init.
  destruct (glsl_compile VERTEX_SHADER vsSrc) as [log|] eqn:Hv.
  - rewrite (compileShader_fails _ _ log _ wf_no_objects Hv). reflexivity.
  - rewrite (compileShader_ok _ _ _ wf_no_objects Hv).
    cbn [no_objects shaders programs next_name]. fold V.
    assert (W1 : well_formed (mkObjects [(1, V)] [] 2))
      by (apply (wf_new_shader no_objects V wf_no_objects); reflexivity).
    destruct (glsl_compile FRAGMENT_SHADER fsSrc) as [log|] eqn:Hf.
    + rewrite (compileShader_fails _ _ log _ W1 Hf). reflexivity.
    + rewrite (compileShader_ok _ _ _ W1 Hf).
      cbn [shaders programs next_name]. fold F.
      assert (W2 : well_formed (mkObjects [(2, F); (1, V)] [] 3))
        by (apply (wf_new_shader (mkObjects [(1, V)] [] 2) F W1); reflexivity).
      destruct (glsl_link [V; F]) as [log|] eqn:Hl.
      * rewrite (linkProgram_fails 1 2 V F log _ W2 eq_refl eq_refl Hl).
        reflexivity.
      * rewrite (linkProgram_ok 1 2 V F _ W2 eq_refl eq_refl Hl).
        reflexivity.
Qed.

(** X3: when both sources compile and the program links, [init] ends with
    exactly one program, linked, with the two shaders attached, and with
    both shaders flagged for deletion, so that they go with the program. *)
Theorem init_success vsSrc fsSrc :
  glsl_compile VERTEX_SHADER vsSrc = None ->
  glsl_compile FRAGMENT_SHADER fsSrc = None ->
  glsl_link [mkShader VERTEX_SHADER vsSrc true "" false;
             mkShader FRAGMENT_SHADER fsSrc true "" false] = None ->
  exists program o,
    init glsl_compile glsl_link vsSrc fsSrc no_objects = (Return program, o) /\
    lookup program (programs o) = Some (mkProgram [1; 2] true "") /\
    List.length (programs o) = 1%nat /\
    lookup 1 (shaders o) = Some (mkShader VERTEX_SHADER vsSrc true "" true) /\
    lookup 2 (shaders o) = Some (mkShader FRAGMENT_SHADER fsSrc true "" true) /\
    forall n s, In (n, s) (shaders o) -> sh_flagged s = true.
Proof.
  intros Hv Hf Hl. rewrite init_table, Hv, Hf, Hl.
  eexists _, _. split; [reflexivity|]. repeat split.
  intros n s [E | [E | []]]; inversion E; reflexivity.
Qed.

(** X4: [init] releases nothing when a later stage throws: if the fragment
    source fails to compile the vertex shader stays alive, unflagged; if the
    link fails both shaders stay alive, unflagged, and no program is left. *)
Theorem init_failure_keeps_shaders vsSrc fsSrc log :
  glsl_compile VERTEX_SHADER vsSrc = None ->
  (glsl_compile FRAGMENT_SHADER fsSrc = Some log ->
   init glsl_compile glsl_link vsSrc fsSrc no_objects =
   (Throw ("Failed to compile shader:" ++ newline ++ log),
    mkObjects [(1, mkShader VERTEX_SHADER vsSrc true "" false)] [] 3)) /\
  (glsl_compile FRAGMENT_SHADER fsSrc = None ->
   glsl_link [mkShader VERTEX_SHADER vsSrc true "" false;
              mkShader FRAGMENT_SHADER fsSrc true "" false] = Some log ->
   init glsl_compile glsl_link vsSrc fsSrc no_objects =
   (Throw ("Failed to link gl program:" ++ newline ++ log),
    mkObjects [(2, mkShader FRAGMENT_SHADER fsSrc true "" false);
               (1, mkShader VERTEX_SHADER vsSrc true "" false)] [] 4)).
Proof.
  intros Hv. split.
  - intros Hf. rewrite init_table, Hv, Hf. reflexivity.
  - intros Hf Hl. rewrite init_table, Hv, Hf, Hl. reflexivity.
Qed.

(** X5: the button is put up, and with it the only way to start the frame
    loop, exactly when the vertex source compiles, the fragment source
    compiles and the program links. *)
Theorem page_up_iff vsSrc fsSrc width height cw ch dpr :
  page glsl_compile glsl_link vsSrc fsSrc width height cw ch dpr <> None <->
  glsl_compile VERTEX_SHADER vsSrc = None /\
  glsl_compile FRAGMENT_SHADER fsSrc = None /\
  glsl_link [mkShader VERTEX_SHADER vsSrc true "" false;
             mkShader FRAGMENT_SHADER fsSrc true "" false] = None.
Proof.
  unfold page. rewrite init_table.
  destruct (glsl_compile VERTEX_SHADER vsSrc);
    [cbn; split; [congruence | intros (H & _); discriminate]|].
  destruct (glsl_compile FRAGMENT_SHADER fsSrc);
    [cbn; split; [congruence | intros (_ & H & _); discriminate]|].
  destruct (glsl_link _);
    [cbn; split; [congruence | intros (_ & _ & H); discriminate]|].
  cbn. split; [auto | discriminate].
Qed.

End InitFacts.

Section InitWitnesses.

Import Stdlib.Strings.String.
Import Init.
Local Open Scope nat_scope.
Local Open Scope string_scope.

Lemma compileShader_outcome_witness :
  fst (compileShader (fun _ _ => Some "0:1: syntax error")
         FRAGMENT_SHADER "void main(" no_objects) =
    Throw ("Failed to compile shader:" ++ newline ++ "0:1: syntax error") /\
  shaders (snd (compileShader (fun _ _ => Some "0:1: syntax error")
                  FRAGMENT_SHADER "void main(" no_objects)) = [].
Proof.
  destruct (compileShader_outcome (fun _ _ => Some "0:1: syntax error")
              FRAGMENT_SHADER "void main(" no_objects wf_no_objects)
    as (_ & _ & H1 & H2).
  split; [exact H1 | exact H2].
Defined.

Lemma linkProgram_outcome_witness :
  fst (linkProgram (fun _ => Some "varying mismatch") 1 2
         (mkObjects [(2, mkShader FRAGMENT_SHADER "f" true "" false);
                     (1, mkShader VERTEX_SHADER "v" true "" false)] [] 3)) =
    Throw ("Failed to link gl program:" ++ newline ++ "varying mismatch") /\
  programs (snd (linkProgram (fun _ => Some "varying mismatch") 1 2
         (mkObjects [(2, mkShader FRAGMENT_SHADER "f" true "" false);
                     (1, mkShader VERTEX_SHADER "v" true "" false)] [] 3))) = [].
Proof.
  assert (W : well_formed
                (mkObjects [(2, mkShader FRAGMENT_SHADER "f" true "" false);
                            (1, mkShader VERTEX_SHADER "v" true "" false)] [] 3)).
  { split; cbn.
    - intros n s [E | [E | []]]; inversion E; (split; [lia | reflexivity]).
    - intros n p []. }
  destruct (linkProgram_outcome (fun _ => Some "varying mismatch") 1 2 _ _ _
              W eq_refl eq_refl) as (_ & _ & H1 & H2).
  split; [exact H1 | exact H2].
Defined.

Lemma init_success_witness :
  exists program o,
    init (fun _ _ => None) (fun _ => None) "v" "f" no_objects
    = (Return program, o).
Proof.
  destruct (init_success (fun _ _ => None) (fun _ => None) "v" "f"
              eq_refl eq_refl eq_refl) as (program & o & H & _).
  exists program, o. exact H.
Defined.

Lemma init_failure_keeps_shaders_witness :
  init (fun t _ => match t with
                   | FRAGMENT_SHADER => Some "0:1: syntax error"
                   | VERTEX_SHADER => None
                   end) (fun _ => None) "v" "f" no_objects =
  (Throw ("Failed to compile shader:" ++ newline ++ "0:1: syntax error"),
   mkObjects [(1, mkShader VERTEX_SHADER "v" true "" false)] [] 3).
Proof.
  apply (init_failure_keeps_shaders
           (fun t _ => match t with
                       | FRAGMENT_SHADER => Some "0:1: syntax error"
                       | VERTEX_SHADER => None
                       end) (fun _ => None) "v" "f" "0:1: syntax error" eq_refl).
  reflexivity.
Defined.

Lemma page_up_iff_witness :
  page (fun _ _ => None) (fun _ => None) "v" "f" 800 600 800 600 ratio1 <> None.
Proof.
  apply (page_up_iff (fun _ _ => None) (fun _ => None) "v" "f" 800 600 800 600
           ratio1).
  repeat split.
Defined.

End InitWitnesses.

(** * Further properties: the page and the frame loop *)

Section HostExtras.

Lemma resizeCanvas_size s :
  canvas_width (resizeCanvas s) =
    floor_scaled (clientWidth s) (effective_ratio (devicePixelRatio s)) /\
  canvas_height (resizeCanvas s) =
    floor_scaled (clientHeight s) (effective_ratio (devicePixelRatio s)) /\
  clientWidth (resizeCanvas s) = clientWidth s /\
  clientHeight (resizeCanvas s) = clientHeight s /\
  devicePixelRatio (resizeCanvas s) = devicePixelRatio s.
Proof.
  unfold resizeCanvas. cbv zeta.
  fold (effective_ratio (devicePixelRatio s)).
  destruct (negb (canvas_width s =? _) || negb (canvas_height s =? _)) eqn:E.
  - repeat split.
  - apply orb_false_elim in E. destruct E as [E1 E2].
    apply negb_false_iff, Z.eqb_eq in E1.
    apply negb_false_iff, Z.eqb_eq in E2.
    repeat split; assumption.
Qed.



(** The double nearest to 1.15, and Math.floor of its products with 300 and
    100: the first is rounded up to 345 before it is floored, the second is
    not. *)
Lemma floor_scaled_example :
  floor_scaled 300 (mkRatio 2589569785738035 2251799813685248) = 345 /\
  (300 * 2589569785738035 / 2251799813685248 = 344)%N /\
  floor_scaled 100 (mkRatio 2589569785738035 2251799813685248) = 114.
Proof. vm_compute. repeat split. Qed.



(** X6: [resizeCanvas] is idempotent: called again with the layout
    unchanged it finds the sizes equal and changes nothing. *)
Theorem resizeCanvas_idempotent s :
  resizeCanvas (resizeCanvas s) = resizeCanvas s.
Proof.
  destruct (resizeCanvas_size s) as (Hw & Hh & Hcw & Hch & Hd).
  generalize dependent (resizeCanvas s). intros s1 Hw Hh Hcw Hch Hd.
  unfold resizeCanvas. cbv zeta.
  fold (effective_ratio (devicePixelRatio s1)).
  rewrite Hcw, Hch, Hd, <- Hw, <- Hh, !Z.eqb_refl. reflexivity.
Qed.

(** ** Before the click *)

Lemma step_idle e s :
  idle s -> is_granted_click e = false ->
  idle (step e s) /\
  framebuffer (context (step e s)) = framebuffer (context s) /\
  uniforms (context (step e s)) = uniforms (context s) /\
  textures (context (step e s)) = textures (context s).
Proof.
  intros Hi He. destruct e as [cw ch dpr | data | granted |]; cbn [step].
  - destruct (resizeCanvas_frame (set_layout cw ch dpr s))
      as (_ & _ & _ & _ & Ht & Hu & Hf).
    split; [apply resizeCanvas_idle; exact Hi|]. repeat split; assumption.
  - repeat split; apply Hi.
  - destruct granted; [discriminate|].
    rewrite onClick_other by (left; reflexivity). repeat split; apply Hi.
  - destruct Hi as (Hb & Hs & Hr). rewrite Hr. repeat split; assumption.
Qed.

Lemma run_idle es s :
  idle s -> forallb (fun e => negb (is_granted_click e)) es = true ->
  idle (run es s) /\
  framebuffer (context (run es s)) = framebuffer (context s) /\
  uniforms (context (run es s)) = uniforms (context s) /\
  textures (context (run es s)) = textures (context s).
Proof.
  revert s. induction es as [|e es IH]; intros s Hi Hes;
    [split; [exact Hi | repeat split]|].
  cbn [forallb] in Hes. apply andb_true_iff in Hes. destruct Hes as [He Hes].
  apply negb_true_iff in He.
  destruct (step_idle e s Hi He) as (Hi' & Hf & Hu & Ht).
  destruct (IH (step e s) Hi' Hes) as (Hi2 & Hf2 & Hu2 & Ht2).
  cbn [run fold_left]. fold (run es (step e s)).
  rewrite Hf2, Hu2, Ht2, Hf, Hu, Ht. split; [exact Hi2 | repeat split].
Qed.

Lemma boot_idle width height cw ch dpr : idle (boot width height cw ch dpr).
Proof. repeat split. Qed.

(** X8: as long as no click has been granted the microphone, whatever is
    laid out, heard, clicked or scheduled, the page stays as it started:
    nothing is cleared or drawn, no texture exists, the uniforms are
    untouched, the button is still there and no frame is scheduled. *)
Theorem nothing_drawn_before_grant width height cw ch dpr es :
  forallb (fun e => negb (is_granted_click e)) es = true ->
  let s := run es (boot width height cw ch dpr) in
  framebuffer (context s) = [] /\
  session s = None /\ okButton s = true /\ raf_pending s = false /\
  uniforms (context s) = mkUniforms 0 0 (0, 0) /\
  (forall n, textures (context s) n = None).
Proof.
  intros Hes s.
  destruct (run_idle es _ (boot_idle width height cw ch dpr) Hes)
    as ((Hb & Hs & Hr) & Hf & Hu & Ht).
  fold s in Hb, Hs, Hr, Hf, Hu, Ht.
  rewrite Hf, Hu, Ht. repeat split; assumption.
Qed.

Lemma nothing_drawn_before_grant_witness :
  framebuffer
    (context (run [Layout 640 480 ratio1; Click false; AnimationFrame]
                (boot 800 600 800 600 ratio1))) = [].
Proof.
  destruct (nothing_drawn_before_grant 800 600 800 600 ratio1
              [Layout 640 480 ratio1; Click false; AnimationFrame] eq_refl)
    as (H & _).
  exact H.
Defined.


(** ** [createSpectrumTexture] and the rest of the context *)

Lemma upd_other {A} (f : nat -> A) k v k' : k' <> k -> upd f k v k' = f k'.
Proof.
  intros H. unfold upd. destruct (Nat.eqb_spec k' k); [contradiction | reflexivity].
Qed.

Lemma textures_set_other T n v m c k :
  k <> n -> textures (set_textures (upd T n v) m c) k = T k.
Proof. intros H. cbn [textures set_textures]. apply upd_other. exact H. Qed.

Lemma createSpectrumTexture_rest bins c :
  0 <= bins ->
  next_texture (snd (createSpectrumTexture bins c)) = S (next_texture c) /\
  (forall n, n <> next_texture c ->
     textures (snd (createSpectrumTexture bins c)) n = textures c n) /\
  active_texture (snd (createSpectrumTexture bins c)) = active_texture c /\
  texture_binding_2d (snd (createSpectrumTexture bins c)) (active_texture c)
    = None /\
  (forall u, u <> active_texture c ->
     texture_binding_2d (snd (createSpectrumTexture bins c)) u =
     texture_binding_2d c u) /\
  unpack_alignment (snd (createSpectrumTexture bins c)) = 1.
Proof.
  intros Hb.
  assert (E : (bins <? 0) = false) by lia.
  unfold createSpectrumTexture, gl_createTexture.
  set (n := next_texture c).
  set (c1 := gl_bindTexture (Some n) _).
  assert (B1 : texture_binding_2d c1 (active_texture c1) = Some n)
    by apply upd_same.
  assert (T1 : textures c1 n = Some GL.fresh_texture) by apply upd_same.
  set (c2 := gl_pixelStorei_UNPACK_ALIGNMENT 1 c1).
  unfold gl_texParameteri, gl_texImage2D_null. rewrite E. cbn [orb].
  change (1 <? 0) with false. cbv iota.
  rewrite (update_bound_bound _ c2 n _ B1 T1).
  set (c3 := set_textures _ _ c2).
  rewrite (update_bound_bound _ c3 n _ B1 (upd_same _ _ _)).
  set (c4 := set_textures _ _ c3).
  rewrite (update_bound_bound _ c4 n _ B1 (upd_same _ _ _)).
  set (c5 := set_textures _ _ c4).
  rewrite (update_bound_bound _ c5 n _ B1 (upd_same _ _ _)).
  set (c6 := set_textures _ _ c5).
  rewrite (update_bound_bound _ c6 n _ B1 (upd_same _ _ _)).
  cbn [fst snd].
  split; [reflexivity|]. split; [|split; [reflexivity|split; [|split]]].
  - intros k Hk.
    change (textures (gl_bindTexture None ?x) k) with (textures x k).
    rewrite textures_set_other by exact Hk.
    unfold c6. rewrite textures_set_other by exact Hk.
    unfold c5. rewrite textures_set_other by exact Hk.
    unfold c4. rewrite textures_set_other by exact Hk.
    unfold c3. rewrite textures_set_other by exact Hk.
    change (textures c2 k) with (upd (textures c) n (Some GL.fresh_texture) k).
    apply upd_other. exact Hk.
  - apply upd_same.
  - intros u Hu.
    cbn [texture_binding_2d gl_bindTexture set_texture_binding_2d].
    change (active_texture (set_textures _ _ c6)) with (active_texture c).
    rewrite upd_other by exact Hu.
    change (texture_binding_2d (set_textures _ _ c6) u)
      with (upd (texture_binding_2d c) (active_texture c) (Some n) u).
    apply upd_other. exact Hu.
  - reflexivity.
Qed.

(** X10: for a bin count up to 2048, the texture width every WebGL 2
    context supports, [createSpectrumTexture] returns a fresh name holding a
    zero-filled [bins] x 1 edge-clamped, linearly filtered texture; it
    changes no other texture, leaves TEXTURE_2D of the active unit unbound
    and the other units' bindings as they were, sets UNPACK_ALIGNMENT to 1
    and raises no GL error. *)
Theorem createSpectrumTexture_isolated bins c :
  0 <= bins <= 2048 ->
  fst (createSpectrumTexture bins c) = next_texture c /\
  next_texture (snd (createSpectrumTexture bins c)) = S (next_texture c) /\
  textures (snd (createSpectrumTexture bins c)) (next_texture c) =
    Some (texture_of (repeat x00 (Z.to_nat bins))) /\
  (forall n, n <> next_texture c ->
     textures (snd (createSpectrumTexture bins c)) n = textures c n) /\
  texture_binding_2d (snd (createSpectrumTexture bins c)) (active_texture c)
    = None /\
  (forall u, u <> active_texture c ->
     texture_binding_2d (snd (createSpectrumTexture bins c)) u =
     texture_binding_2d c u) /\
  unpack_alignment (snd (createSpectrumTexture bins c)) = 1 /\
  gl_error (snd (createSpectrumTexture bins c)) = gl_error c.
Proof.
  intros [Hb _].
  destruct (createSpectrumTexture_spec bins c Hb) as (H1 & H2 & _ & _ & _ & _ & He).
  destruct (createSpectrumTexture_rest bins c Hb) as (H3 & H4 & _ & H5 & H6 & H7).
  split; [exact H1|]. split; [exact H3|]. split.
  - rewrite H2. unfold texture_of. rewrite repeat_length, Z2Nat.id by exact Hb.
    rewrite Z.mul_1_r. reflexivity.
  - repeat split; assumption.
Qed.

Lemma createSpectrumTexture_isolated_witness :
  fst (createSpectrumTexture 1024 (initial_context 800 600)) = 1%nat /\
  unpack_alignment (snd (createSpectrumTexture 1024 (initial_context 800 600)))
  = 1.
Proof.
  destruct (createSpectrumTexture_isolated 1024 (initial_context 800 600)
              ltac:(lia)) as (H1 & _ & _ & _ & _ & _ & H2 & _).
  split; [exact H1 | exact H2].
Defined.


(** ** The running loop *)

Lemma gl_texSubImage2D_next x y w h src c :
  next_texture (gl_texSubImage2D x y w h src c) = next_texture c.
Proof.
  unfold gl_texSubImage2D.
  destruct (bound_texture _ c) as [[n t]|]; [|reflexivity].
  destruct (_ || _); [reflexivity|].
  destruct (_ <? _); reflexivity.
Qed.

Lemma gl_drawArrays_next c : next_texture (gl_drawArrays c) = next_texture c.
Proof. unfold gl_drawArrays. destruct (current_program c); reflexivity. Qed.

Lemma resizeCanvas_next_texture s :
  next_texture (context (resizeCanvas s)) = next_texture (context s).
Proof.
  unfold resizeCanvas. cbv zeta.
  destruct (negb _ || negb _); [|reflexivity].
  unfold gl_viewport. destruct (_ || _); reflexivity.
Qed.

Lemma render_next_texture s :
  next_texture (context (render s)) = next_texture (context s).
Proof.
  pose proof (resizeCanvas_next_texture s) as Hn.
  unfold render. cbv zeta.
  destruct (session (resizeCanvas s)) as [ss|]; [|exact Hn].
  cbn [context set_raf_pending set_session set_context].
  set (c1 := gl_bindTexture _ _).
  set (c2 := gl_texSubImage2D _ _ _ _ _ c1).
  set (c3 := gl_bindVertexArray true _).
  transitivity (next_texture (gl_drawArrays c3)); [reflexivity|].
  rewrite gl_drawArrays_next.
  transitivity (next_texture c2); [reflexivity|].
  unfold c2. rewrite gl_texSubImage2D_next.
  exact Hn.
Qed.

(** What a frame does to the module variables: only the snapshot changes. *)
Lemma render_session s ss :
  session s = Some ss ->
  exists snap,
    session (render s) =
    Some (mkSession (analyzer_fftSize ss) (bins ss) snap (spectrumTexture ss)).
Proof.
  intros Hs.
  destruct (resizeCanvas_frame s) as (Hs' & _).
  unfold render. cbv zeta. rewrite Hs', Hs.
  eexists. reflexivity.
Qed.

Lemma count_draws_frame_ops ds l :
  List.length (filter (fun op => match op with Draw _ => true | _ => false end)
                 (frame_ops ds ++ l)) =
  (List.length ds +
   List.length (filter (fun op => match op with Draw _ => true | _ => false end) l))%nat.
Proof.
  induction ds as [|d ds IH]; [reflexivity|].
  change (frame_ops (d :: ds) ++ l)
    with (Draw d :: Clear (0, 0, 0, 1) :: (frame_ops ds ++ l)).
  cbn [filter List.length]. rewrite IH. reflexivity.
Qed.

Lemma render_analyser_data s : analyser_data (render s) = analyser_data s.
Proof.
  destruct (resizeCanvas_frame s) as (_ & _ & _ & Ha & _).
  unfold render. cbv zeta.
  destruct (session (resizeCanvas s)); exact Ha.
Qed.

Lemma spectrum_texture_eq t t' B :
  spectrum_texture t B -> spectrum_texture t' B ->
  GL.tex_data t = GL.tex_data t' -> t = t'.
Proof.
  intros (H1 & H2 & H3 & H4 & H5 & H6 & _) (K1 & K2 & K3 & K4 & K5 & K6 & _) Hd.
  destruct t, t'. cbn in *. congruence.
Qed.




(** ** The click handler across its await *)

Lemma resume_spec s :
  ready (resume s) /\ raf_pending (resume s) = true /\
  uniforms (context (resume s)) =
    mkUniforms 0 1024 (canvas_width s, canvas_height s) /\
  canvas_width (resume s) = canvas_width s /\
  canvas_height (resume s) = canvas_height s /\
  viewport (context (resume s)) = viewport (context s) /\
  gl_error (context (resume s)) = gl_error (context s) /\
  framebuffer (context (resume s)) = framebuffer (context s) /\
  next_texture (context (resume s)) = S (next_texture (context s)) /\
  session (resume s) =
    Some (mkSession 2048 1024 (repeat x00 1024) (next_texture (context s))) /\
  textures (context (resume s)) (next_texture (context s)) =
    Some (texture_of (repeat x00 1024)) /\
  (forall n, n <> next_texture (context s) ->
     textures (context (resume s)) n = textures (context s) n).
Proof.
  unfold resume.
  change (initAudioAnalyzer true) with (Some (2048, 1024, repeat x00 1024)).
  cbv iota beta.
  destruct (createSpectrumTexture_spec 1024 (context s) ltac:(lia))
    as (Hn & Ht & Hu & Hp & Hf & Hv & He).
  destruct (createSpectrumTexture_rest 1024 (context s) ltac:(lia))
    as (Hn1 & Ho & _).
  destruct (createSpectrumTexture 1024 (context s)) as [n c].
  cbn [fst snd] in *. subst n.
  set (c1 := gl_uniform2f _ _ _ _).
  assert (U : uniforms c1 =
              mkUniforms 0 1024 (canvas_width s, canvas_height s)) by reflexivity.
  assert (T : textures c1 = textures c) by reflexivity.
  assert (V : viewport c1 = viewport c) by reflexivity.
  assert (E : gl_error c1 = gl_error c) by reflexivity.
  assert (F : framebuffer c1 = framebuffer c) by reflexivity.
  assert (N1 : next_texture c1 = next_texture c) by reflexivity.
  clearbody c1.
  cbn [context set_raf_pending set_okButton set_session set_context
       raf_pending canvas_width canvas_height session].
  rewrite U, V, E, F, N1, T, Hv, He, Hf, Hn1, Ht.
  split.
  { split; [reflexivity|].
    exists (mkSession 2048 1024 (repeat x00 1024) (next_texture (context s))).
    eexists.
    cbn [session set_raf_pending set_okButton set_session set_context context
         analyzer_fftSize bins spectrum spectrumTexture].
    rewrite T, Ht, U. cbn [val_uSpectrum val_uBins].
    repeat split. }
  repeat split. exact Ho.
Qed.

Lemma resume_tracked s : tracked s -> tracked (resume s).
Proof.
  intros (Hv & Hw & Hh & He).
  destruct (resume_spec s) as (_ & _ & _ & Ew & Eh & Ev & Ee & _).
  unfold tracked. rewrite Ew, Eh, Ev, Ee. auto.
Qed.

Lemma onClick_resume s : okButton s = true -> onClick true s = resume s.
Proof. intros H. unfold onClick, resume. rewrite H. reflexivity. Qed.

Lemma resizeCanvas_fixed s :
  canvas_width s =
    floor_scaled (clientWidth s) (effective_ratio (devicePixelRatio s)) ->
  canvas_height s =
    floor_scaled (clientHeight s) (effective_ratio (devicePixelRatio s)) ->
  resizeCanvas s = s.
Proof.
  intros Hw Hh. unfold resizeCanvas. cbv zeta.
  fold (effective_ratio (devicePixelRatio s)).
  rewrite <- Hw, <- Hh, !Z.eqb_refl. reflexivity.
Qed.

Lemma render_layout s :
  clientWidth (render s) = clientWidth s /\
  clientHeight (render s) = clientHeight s /\
  devicePixelRatio (render s) = devicePixelRatio s.
Proof.
  destruct (resizeCanvas_size s) as (_ & _ & Hcw & Hch & Hd).
  unfold render. cbv zeta.
  destruct (session (resizeCanvas s)); repeat split; assumption.
Qed.

(** One call of [render] on a running page. *)
Lemma render_draw s :
  ready s ->
  framebuffer (context (render s)) =
    Draw (frame_draw s) :: Clear (0, 0, 0, 1) :: framebuffer (context s) /\
  frame_draw (render s) = frame_draw s.
Proof.
  intros Hr.
  destruct (render_ready s Hr)
    as (Hr' & _ & ss' & d & t' & A1 & A2 & A3 & A4 & A5 & A6 & A7 & A8 & A9
        & _ & A11 & A12).
  assert (Ed : d = frame_draw s).
  { destruct d as [v u t]. cbn [d_texture d_uniforms d_viewport] in *.
    unfold frame_draw. subst v u t. do 2 f_equal.
    apply (spectrum_texture_eq t' _ 1024 A6).
    - pose proof (texture_of_spectrum (map (analyser_data s) (seq 0 1024))) as H.
      rewrite length_map, length_seq in H. exact H.
    - rewrite A5, A2. reflexivity. }
  split; [rewrite A3, Ed; reflexivity|].
  destruct (render_layout s) as (Lw & Lh & Ld).
  destruct (resizeCanvas_size s) as (Sw & Sh & _).
  unfold frame_draw.
  rewrite render_uniforms, render_analyser_data.
  rewrite resizeCanvas_fixed by (rewrite ?Lw, ?Lh, ?Ld, ?A11, ?A12; assumption).
  rewrite A9. reflexivity.
Qed.

Lemma render_tracked s : ready s -> tracked s -> tracked (render s).
Proof.
  intros Hr Ht.
  destruct (render_ready s Hr)
    as (_ & _ & ss' & d & t' & _ & _ & _ & _ & _ & _ & _ & _ & Hv & He & Hw & Hh).
  apply resizeCanvas_tracked in Ht. destruct Ht as (? & ? & ? & ?).
  unfold tracked. rewrite Hw, Hh, Hv, He. auto.
Qed.

Lemma render_spectrumTexture s :
  ready s ->
  option_map spectrumTexture (session (render s)) =
  option_map spectrumTexture (session s).
Proof.
  intros (_ & ss & t & Hss & _).
  destruct (render_session s ss Hss) as (snap & Hsn).
  rewrite Hsn, Hss. reflexivity.
Qed.

(** A frame with [n] callbacks: [render] runs [n] times; while the
    analyser's estimate stays as it is, each run issues the same draw. *)
Lemma iter_render n s :
  ready s -> tracked s ->
  ready (Nat.iter n render s) /\ tracked (Nat.iter n render s) /\
  (raf_pending s = true -> raf_pending (Nat.iter n render s) = true) /\
  next_texture (context (Nat.iter n render s)) = next_texture (context s) /\
  option_map spectrumTexture (session (Nat.iter n render s)) =
    option_map spectrumTexture (session s) /\
  frame_draw (Nat.iter n render s) = frame_draw s /\
  framebuffer (context (Nat.iter n render s)) =
    frame_ops (repeat (frame_draw s) n) ++ framebuffer (context s).
Proof.
  intros Hr Ht. induction n as [|n IH].
  - cbn [Nat.iter nat_rect repeat].
    split; [exact Hr|]. split; [exact Ht|]. repeat split. intros H; exact H.
  - destruct IH as (Hr' & Ht' & Hp' & Hn' & Hs' & Hd' & Hf').
    change (Nat.iter (S n) render s) with (render (Nat.iter n render s)).
    set (s' := Nat.iter n render s) in *.
    destruct (render_ready s' Hr') as (R & P & _).
    destruct (render_draw s' Hr') as (F & D).
    split; [exact R|]. split; [apply render_tracked; assumption|].
    split; [intros _; exact P|].
    rewrite render_next_texture, render_spectrumTexture by exact Hr'.
    split; [exact Hn'|]. split; [exact Hs'|].
    split; [rewrite D; exact Hd'|].
    rewrite F, Hd', Hf'. reflexivity.
Qed.

Lemma page_step_looping e p : looping p -> looping (page_step e p).
Proof.
  intros (Ht & Hn & Hc).
  destruct e as [cw ch dpr | data | | granted |]; cbn [page_step].
  - destruct (resizeCanvas_frame (set_layout cw ch dpr (world p)))
      as (Hs & _ & Hraf & _).
    split; [apply resizeCanvas_tracked; exact Ht|].
    cbn [world callbacks]. rewrite resizeCanvas_next_texture.
    split; [exact Hn|].
    destruct (callbacks p) as [|k].
    + apply resizeCanvas_idle. exact Hc.
    + destruct Hc as (Hr & Hp & Hx).
      split; [apply resizeCanvas_ready; exact Hr|].
      rewrite Hraf, Hs. split; [exact Hp | exact Hx].
  - split; [exact Ht|]. split; [exact Hn|]. exact Hc.
  - destruct (okButton (world p)); split; auto.
  - destruct (awaiting p) as [|a]; [split; auto|].
    destruct granted; [|split; auto].
    destruct (resume_spec (world p))
      as (Hr & Hp & _ & _ & _ & _ & _ & _ & Hn' & Hs' & _).
    split; [apply resume_tracked; exact Ht|].
    cbn [world callbacks]. rewrite Hn', Hs', Hn.
    split; [reflexivity|]. split; [exact Hr|]. split; [exact Hp | reflexivity].
  - unfold looping. cbn [world callbacks].
    destruct (callbacks p) as [|k] eqn:Ek.
    + cbn [Nat.iter nat_rect]. split; [exact Ht|]. split; [exact Hn | exact Hc].
    + destruct Hc as (Hr & Hp & Hx).
      destruct (iter_render (S k) (world p) Hr Ht)
        as (Hr' & Ht' & Hp' & Hn' & Hs' & _).
      split; [exact Ht'|]. rewrite Hn', Hs'.
      split; [exact Hn|]. split; [exact Hr'|].
      split; [apply Hp'; exact Hp | exact Hx].
Qed.

Lemma start_looping width height cw ch dpr :
  looping (start width height cw ch dpr).
Proof.
  split; [apply boot_inv|]. split; [reflexivity|]. apply boot_idle.
Qed.

Lemma page_run_looping es p : looping p -> looping (page_run es p).
Proof.
  revert p. induction es as [|e es IH]; intros p H; [exact H|].
  cbn. apply IH, page_step_looping, H.
Qed.

(** X9: when a pending microphone request is granted the handler resumes
    where it was suspended: it removes the button, adds a [render] callback,
    allocates a fresh zero-filled 1024 x 1 texture under the next free name
    and leaves every other texture alone, assigns the module variables
    (2048-point analyser, 1024 bins, a 1024-byte zero snapshot, the new
    texture), and sets uSpectrum = 0, uBins = 1024 and uAspect to the size
    the canvas has at that moment, which need not be the size it had when
    the button was clicked.  Nothing is drawn.  A refused request only
    leaves the list of pending requests. *)
Theorem settled_request_resumes p :
  (0 < awaiting p)%nat ->
  awaiting (page_step (Settled true) p) = pred (awaiting p) /\
  callbacks (page_step (Settled true) p) = S (callbacks p) /\
  okButton (world (page_step (Settled true) p)) = false /\
  uniforms (context (world (page_step (Settled true) p))) =
    mkUniforms 0 1024 (canvas_width (world p), canvas_height (world p)) /\
  canvas_width (world (page_step (Settled true) p)) = canvas_width (world p) /\
  canvas_height (world (page_step (Settled true) p)) = canvas_height (world p) /\
  framebuffer (context (world (page_step (Settled true) p))) =
    framebuffer (context (world p)) /\
  session (world (page_step (Settled true) p)) =
    Some (mkSession 2048 1024 (repeat x00 1024)
            (next_texture (context (world p)))) /\
  textures (context (world (page_step (Settled true) p)))
    (next_texture (context (world p))) = Some (texture_of (repeat x00 1024)) /\
  (forall n, n <> next_texture (context (world p)) ->
     textures (context (world (page_step (Settled true) p))) n =
     textures (context (world p)) n) /\
  page_step (Settled false) p =
    mkPage (world p) (pred (awaiting p)) (callbacks p).
Proof.
  intros Ha. cbn [page_step].
  destruct (awaiting p) as [|a]; [lia|]. cbn [world awaiting callbacks pred].
  destruct (resume_spec (world p))
    as (Hr & _ & Hu & Hw & Hh & _ & _ & Hf & _ & Hs & Ht & Ho).
  split; [reflexivity|]. split; [reflexivity|]. split; [apply Hr|].
  repeat split; assumption.
Qed.

Lemma settled_request_resumes_witness :
  uniforms
    (context (world (page_step (Settled true)
                       (page_run [Pressed; Resized 640 480 ratio1]
                          (start 800 600 800 600 ratio1))))) =
  mkUniforms 0 1024
    (canvas_width (world (page_run [Pressed; Resized 640 480 ratio1]
                            (start 800 600 800 600 ratio1))),
     canvas_height (world (page_run [Pressed; Resized 640 480 ratio1]
                             (start 800 600 800 600 ratio1)))).
Proof.
  destruct (settled_request_resumes
              (page_run [Pressed; Resized 640 480 ratio1]
                 (start 800 600 800 600 ratio1))
              ltac:(vm_compute; lia)) as (_ & _ & _ & H & _).
  exact H.
Defined.

(** The canvas is laid out anew between the click and the grant: uAspect
    gets the size at the grant, 640 x 480, not the 800 x 600 of the click. *)
Lemma layout_between_click_and_grant :
  let p := page_run [Pressed] (start 800 600 800 600 ratio1) in
  let p' := page_run [Resized 640 480 ratio1; Settled true] p in
  (canvas_width (world p), canvas_height (world p)) = (800, 600) /\
  val_uAspect (uniforms (context (world p'))) = (640, 480).
Proof. vm_compute. split; reflexivity. Qed.

Lemma page_step_callbacks e p :
  (callbacks p <= callbacks (page_step e p) <= S (callbacks p))%nat.
Proof.
  destruct e as [cw ch dpr | data | | granted |]; cbn [page_step callbacks];
    try lia.
  - destruct (okButton (world p)); cbn [callbacks]; lia.
  - destruct (awaiting p); [lia|]. destruct granted; cbn [callbacks]; lia.
Qed.

Lemma page_step_awaiting e p :
  okButton (world p) = false -> (awaiting (page_step e p) <= awaiting p)%nat.
Proof.
  intros Hb.
  destruct e as [cw ch dpr | data | | granted |]; cbn [page_step awaiting];
    try lia.
  - rewrite Hb. lia.
  - destruct (awaiting p) eqn:E; [lia|]. destruct granted; cbn [awaiting]; lia.
Qed.

(** X11: every granted request starts a frame loop of its own, and none
    ever stops.  In every state the page reaches, the number of textures
    created is the number of [render] callbacks per frame; the button is in
    the page exactly as long as that number is 0; with loops running the
    module variables name the newest texture, a 1024 x 1 spectrum texture,
    with 1024 bins and a 1024-byte snapshot (older textures are neither
    used nor deleted).  No event lowers the number of callbacks, and once
    the button is gone no further request is started. *)
Theorem frame_loops_accumulate width height cw ch dpr es :
  let p := page_run es (start width height cw ch dpr) in
  next_texture (context (world p)) = S (callbacks p) /\
  okButton (world p) = (callbacks p =? 0)%nat /\
  raf_pending (world p) = negb (callbacks p =? 0)%nat /\
  (callbacks p = 0%nat -> session (world p) = None) /\
  ((0 < callbacks p)%nat ->
   exists ss t,
     session (world p) = Some ss /\
     spectrumTexture ss = callbacks p /\
     bins ss = 1024 /\ List.length (spectrum ss) = 1024%nat /\
     textures (context (world p)) (callbacks p) = Some t /\
     spectrum_texture t 1024) /\
  (forall e, (callbacks p <= callbacks (page_step e p) <= S (callbacks p))%nat) /\
  (forall e, okButton (world p) = false ->
     (awaiting (page_step e p) <= awaiting p)%nat).
Proof.
  intros p.
  pose proof (page_run_looping es _ (start_looping width height cw ch dpr))
    as (_ & Hn & Hc).
  fold p in Hn, Hc.
  split; [exact Hn|].
  destruct (callbacks p) as [|k] eqn:Ek.
  - destruct Hc as (Hb & Hs & Hr).
    split; [exact Hb|]. split; [exact Hr|]. split; [intros _; exact Hs|].
    split; [intros H; lia|].
    split; [intros e; rewrite <- Ek; apply page_step_callbacks|].
    intros e; apply page_step_awaiting.
  - destruct Hc as ((Hb & ss & t & Hss & _ & Hbins & Hlen & Ht & Hst & _) & Hr & Hx).
    split; [exact Hb|]. split; [exact Hr|]. split; [intros H; discriminate|].
    split.
    + intros _. exists ss, t. rewrite Hss in Hx. cbn [option_map] in Hx.
      inversion Hx as [Hx']. rewrite Hx' in Ht |- *.
      repeat (split; [assumption || reflexivity|]). exact Hst.
    + split; [intros e; rewrite <- Ek; apply page_step_callbacks|].
      intros e; apply page_step_awaiting.
Qed.

(** Two clicks before the first grant: two textures, two loops. *)
Lemma frame_loops_accumulate_witness :
  next_texture
    (context (world (page_run [Pressed; Pressed; Settled true; Settled true]
                       (start 800 600 800 600 ratio1)))) = 3%nat.
Proof.
  destruct (frame_loops_accumulate 800 600 800 600 ratio1
              [Pressed; Pressed; Settled true; Settled true]) as (H & _).
  exact H.
Defined.

Lemma count_draws_app ds c c' :
  framebuffer c' = frame_ops ds ++ framebuffer c ->
  count_draws c' = (count_draws c + List.length ds)%nat.
Proof.
  intros H. unfold count_draws. rewrite H, count_draws_frame_ops. lia.
Qed.

(** X12: an animation frame runs every registered [render] callback, and
    each registers itself again.  With [n] loops the frame adds [n] times a
    clear to opaque black followed by a draw, and nothing else, so the number
    of draw calls grows by [n]; every one of these draws runs with the
    uniforms as they were before the frame and reads a 1024 x 1 spectrum
    texture. *)
Theorem frame_runs_every_loop width height cw ch dpr es :
  let p := page_run es (start width height cw ch dpr) in
  let p' := page_step FrameDue p in
  callbacks p' = callbacks p /\
  count_draws (context (world p')) =
    (count_draws (context (world p)) + callbacks p)%nat /\
  exists ds,
    List.length ds = callbacks p /\
    framebuffer (context (world p')) =
      frame_ops ds ++ framebuffer (context (world p)) /\
    Forall (fun d => d_uniforms d = uniforms (context (world p)) /\
                     exists t, d_texture d = Some t /\ spectrum_texture t 1024)
      ds.
Proof.
  intros p p'.
  pose proof (page_run_looping es _ (start_looping width height cw ch dpr))
    as (Ht & _ & Hc).
  fold p in Ht, Hc.
  assert (Hf : framebuffer (context (world p')) =
               frame_ops (repeat (frame_draw (world p)) (callbacks p))
               ++ framebuffer (context (world p))).
  { unfold p'. cbn [page_step world].
    destruct (callbacks p) as [|k]; [reflexivity|].
    destruct Hc as (Hr & _).
    apply (iter_render (S k) (world p) Hr Ht). }
  split; [reflexivity|].
  split.
  - rewrite (count_draws_app _ _ _ Hf), repeat_length. reflexivity.
  - exists (repeat (frame_draw (world p)) (callbacks p)).
    split; [apply repeat_length|]. split; [exact Hf|].
    apply Forall_forall. intros d Hd. apply repeat_spec in Hd. subst d.
    split; [reflexivity|]. eexists. split; [reflexivity|].
    pose proof (texture_of_spectrum
                  (map (analyser_data (world p)) (seq 0 1024))) as H.
    rewrite length_map, length_seq in H. exact H.
Qed.

(** Two loops: one frame, two draws. *)
Lemma frame_runs_every_loop_witness :
  count_draws
    (context (world (page_step FrameDue
                       (page_run [Pressed; Pressed; Settled true; Settled true]
                          (start 800 600 800 600 ratio1))))) = 2%nat.
Proof.
  destruct (frame_runs_every_loop 800 600 800 600 ratio1
              [Pressed; Pressed; Settled true; Settled true]) as (_ & H & _).
  exact H.
Defined.

(** ** The atomic click as a special case *)

Lemma resizeCanvas_raf b s :
  resizeCanvas (set_raf_pending b s) = set_raf_pending b (resizeCanvas s).
Proof.
  unfold resizeCanvas. cbv zeta.
  cbn [set_raf_pending devicePixelRatio clientWidth clientHeight canvas_width
       canvas_height].
  destruct (negb _ || negb _); reflexivity.
Qed.

Lemma render_raf b s :
  session s <> None -> render (set_raf_pending b s) = render s.
Proof.
  intros Hs.
  destruct (resizeCanvas_frame s) as (Es & _).
  unfold render. cbv zeta. rewrite resizeCanvas_raf.
  cbn [set_raf_pending session].
  destruct (session (resizeCanvas s)) as [ss|]; [reflexivity|].
  rewrite Es in Hs. congruence.
Qed.

Lemma page_run_app es1 es2 p :
  page_run (es1 ++ es2) p = page_run es2 (page_run es1 p).
Proof. unfold page_run. apply fold_left_app. Qed.

Lemma unfold_event_step e p :
  inv (world p) -> awaiting p = 0%nat ->
  callbacks p = (if raf_pending (world p) then 1 else 0)%nat ->
  world (page_run (unfold_event e) p) = step e (world p) /\
  awaiting (page_run (unfold_event e) p) = 0%nat /\
  callbacks (page_run (unfold_event e) p) =
    (if raf_pending (step e (world p)) then 1 else 0)%nat.
Proof.
  intros Hi Ha Hc.
  destruct e as [cw ch dpr | data | granted |];
    cbn [unfold_event page_run fold_left page_step step].
  - destruct (resizeCanvas_frame (set_layout cw ch dpr (world p)))
      as (_ & _ & Hraf & _).
    cbn [world awaiting callbacks]. rewrite Hraf.
    repeat split; assumption.
  - cbn [world awaiting callbacks]. repeat split; assumption.
  - destruct (okButton (world p)) eqn:Hb.
    + cbn [awaiting world callbacks].
      destruct granted.
      * cbn [world awaiting callbacks].
        rewrite (onClick_resume _ Hb).
        destruct (resume_spec (world p)) as (_ & Hp & _). rewrite Hp.
        destruct Hi as [_ [(_ & _ & Hr) | (Hr & _)]]; [|congruence].
        rewrite Hr in Hc. rewrite Hc. repeat split. exact Ha.
      * cbn [world awaiting callbacks].
        rewrite onClick_other by (left; reflexivity).
        repeat split; assumption.
    + rewrite Ha. rewrite onClick_other by (right; exact Hb).
      repeat split; assumption.
  - cbn [world awaiting callbacks].
    destruct (raf_pending (world p)) eqn:Hp; rewrite Hc.
    + cbn [Nat.iter nat_rect].
      pose proof (pending_ready _ Hi Hp) as Hr.
      assert (Hs : session (world p) <> None).
      { destruct Hr as (_ & ss & t & Hss & _). rewrite Hss. discriminate. }
      rewrite (render_raf false _ Hs).
      destruct (render_ready _ Hr) as (_ & Hp' & _). rewrite Hp'.
      repeat split; assumption.
    + cbn [Nat.iter nat_rect]. rewrite Hp. repeat split; assumption.
Qed.

(** X23: the atomic click is the asynchronous handler when every request
    settles before anything else happens.  A history of the atomic model,
    each click taken apart into the press and the settlement that follows
    it at once, leads the page to the same state; no request is left
    pending, and one [render] callback is registered exactly when a frame
    is scheduled. *)
Theorem atomic_clicks_refine width height cw ch dpr es :
  let p := page_run (flat_map unfold_event es) (start width height cw ch dpr) in
  let s := run es (boot width height cw ch dpr) in
  world p = s /\ awaiting p = 0%nat /\
  callbacks p = (if raf_pending s then 1 else 0)%nat.
Proof.
  cbv zeta.
  assert (G : forall p,
    inv (world p) -> awaiting p = 0%nat ->
    callbacks p = (if raf_pending (world p) then 1 else 0)%nat ->
    world (page_run (flat_map unfold_event es) p) = run es (world p) /\
    awaiting (page_run (flat_map unfold_event es) p) = 0%nat /\
    callbacks (page_run (flat_map unfold_event es) p) =
      (if raf_pending (run es (world p)) then 1 else 0)%nat).
  { induction es as [|e es IH]; intros p Hi Ha Hc.
    - repeat split; assumption.
    - cbn [flat_map]. rewrite page_run_app.
      destruct (unfold_event_step e p Hi Ha Hc) as (Hw & Ha' & Hc').
      cbn [run fold_left]. fold (run es (step e (world p))).
      rewrite <- Hw in *.
      apply IH; [|exact Ha'|exact Hc'].
      rewrite Hw. apply step_inv. exact Hi. }
  apply (G (start width height cw ch dpr)); [apply boot_inv | reflexivity..].
Qed.

Lemma atomic_clicks_refine_witness :
  world (page_run [Pressed; Settled false; Resized 640 480 ratio1; Pressed;
                   Settled true; FrameDue] (start 800 600 800 600 ratio1)) =
  run [Click false; Layout 640 480 ratio1; Click true; AnimationFrame]
    (boot 800 600 800 600 ratio1).
Proof.
  destruct (atomic_clicks_refine 800 600 800 600 ratio1
              [Click false; Layout 640 480 ratio1; Click true; AnimationFrame])
    as (H & _).
  exact H.
Defined.

(** ** The viewport *)

Lemma resume_layout s :
  clientWidth (resume s) = clientWidth s /\
  clientHeight (resume s) = clientHeight s /\
  devicePixelRatio (resume s) = devicePixelRatio s.
Proof.
  unfold resume.
  destruct (initAudioAnalyzer true) as [[[fftSize bins] spectrum]|];
    [|repeat split].
  destruct (createSpectrumTexture bins (context s)). repeat split.
Qed.

Lemma render_canvas s :
  canvas_width (render s) = canvas_width (resizeCanvas s) /\
  canvas_height (render s) = canvas_height (resizeCanvas s).
Proof.
  unfold render. cbv zeta.
  destruct (session (resizeCanvas s)); split; reflexivity.
Qed.

Lemma resizeCanvas_within Lw Lh s :
  layout_within Lw Lh (clientWidth s) (clientHeight s) (devicePixelRatio s) ->
  sized_within Lw Lh (resizeCanvas s).
Proof.
  intros H. destruct (resizeCanvas_size s) as (Hw & Hh & Hcw & Hch & Hd).
  unfold sized_within. rewrite Hw, Hh, Hcw, Hch, Hd.
  split; [apply H|]. split; [apply H | exact H].
Qed.

Lemma render_within Lw Lh s : sized_within Lw Lh s -> sized_within Lw Lh (render s).
Proof.
  intros (_ & _ & Hl).
  destruct (render_canvas s) as (Ew & Eh).
  destruct (render_layout s) as (Ecw & Ech & Ed).
  destruct (resizeCanvas_within Lw Lh s Hl) as (Kw & Kh & _).
  unfold sized_within. rewrite Ew, Eh, Ecw, Ech, Ed.
  split; [exact Kw|]. split; [exact Kh | exact Hl].
Qed.

Lemma page_step_within Lw Lh e p :
  sized_within Lw Lh (world p) -> event_within Lw Lh e ->
  sized_within Lw Lh (world (page_step e p)).
Proof.
  intros Hs He.
  destruct e as [cw ch dpr | data | | granted |]; cbn [page_step].
  - apply resizeCanvas_within. exact He.
  - exact Hs.
  - destruct (okButton (world p)); exact Hs.
  - destruct (awaiting p); [exact Hs|].
    destruct granted; [|exact Hs]. cbn [world].
    destruct (resume_spec (world p)) as (_ & _ & _ & Ew & Eh & _).
    destruct (resume_layout (world p)) as (Ecw & Ech & Ed).
    unfold sized_within. rewrite Ew, Eh, Ecw, Ech, Ed. exact Hs.
  - cbn [world]. induction (callbacks p) as [|n IH]; [exact Hs|].
    apply (render_within Lw Lh _ IH).
Qed.

Lemma page_run_within Lw Lh es p :
  sized_within Lw Lh (world p) -> Forall (event_within Lw Lh) es ->
  sized_within Lw Lh (world (page_run es p)).
Proof.
  revert p. induction es as [|e es IH]; intros p Hs Hes; [exact Hs|].
  inversion Hes as [|? ? He Hes']; subst.
  cbn. apply IH; [apply page_step_within; assumption | exact Hes'].
Qed.

(** X13: let [Lw] x [Lh] be a size the implementation accepts for a
    viewport as it is (its MAX_VIEWPORT_DIMS, or less).  If the drawing
    buffer starts within it and every layout asks for sides within it, then
    in every state the page reaches, overlapping clicks included, the GL
    viewport is the whole drawing buffer of the canvas,
    (0, 0, canvas.width, canvas.height), the canvas sides are between 0 and
    the limits, and no GL call of the program has raised an error. *)
Theorem viewport_tracks_canvas Lw Lh width height cw ch dpr es :
  Z.of_N width <= Lw -> Z.of_N height <= Lh ->
  layout_within Lw Lh cw ch dpr ->
  Forall (event_within Lw Lh) es ->
  let s := world (page_run es (start width height cw ch dpr)) in
  viewport (context s) = (0, 0, canvas_width s, canvas_height s) /\
  0 <= canvas_width s <= Lw /\ 0 <= canvas_height s <= Lh /\
  gl_error (context s) = NO_ERROR.
Proof.
  intros Hw Hh Hl Hes s.
  destruct (page_run_looping es _ (start_looping width height cw ch dpr))
    as ((Tv & Tw & Th & Te) & _).
  assert (K : sized_within Lw Lh (world (start width height cw ch dpr)))
    by (split; [exact Hw | split; [exact Hh | exact Hl]]).
  destruct (page_run_within Lw Lh es _ K Hes) as (Kw & Kh & _).
  fold s in Tv, Tw, Th, Te, Kw, Kh.
  split; [exact Tv|]. split; [split; assumption|].
  split; [split; assumption | exact Te].
Qed.

Lemma viewport_tracks_canvas_witness :
  viewport
    (context
       (world (page_run [Pressed; Resized 1024 768 (mkRatio 2 1); Settled true;
                         FrameDue] (start 300 150 800 600 ratio1)))) =
  (0, 0, 2048, 1536).
Proof.
  destruct (viewport_tracks_canvas 4096 4096 300 150 800 600 ratio1
              [Pressed; Resized 1024 768 (mkRatio 2 1); Settled true; FrameDue]
              ltac:(vm_compute; discriminate) ltac:(vm_compute; discriminate)
              ltac:(vm_compute; split; discriminate)
              ltac:(repeat constructor; vm_compute; discriminate))
    as (H & _).
  exact H.
Defined.

End HostExtras.

(** * Further properties: the shader *)

Section ShaderExtras.

Local Open Scope R_scope.
Import GLSL.

(** ** Ranges *)

Lemma texel_range t i j : 0 <= GL.texel t i j <= 1.
Proof.
  unfold GL.texel.
  set (b := nth _ _ _).
  pose proof (Byte.to_N_bounded b) as Hb.
  assert (H0 : (0 <= Z.of_N (Byte.to_N b) <= 255)%Z) by lia.
  destruct H0 as [H0 H1]. apply IZR_le in H0, H1.
  split.
  - apply Rmult_le_pos; [exact H0 | lra].
  - apply Rmult_le_reg_r with 255; [lra|].
    unfold Rdiv. rewrite Rmult_assoc, Rinv_l by lra. lra.
Qed.

Lemma lerp_range a x y :
  0 <= a <= 1 -> 0 <= x <= 1 -> 0 <= y <= 1 -> 0 <= (1 - a) * x + a * y <= 1.
Proof. intros. nra. Qed.

Lemma floor_weight x : 0 <= x - IZR (Zfloor x) <= 1.
Proof. pose proof (Zfloor_bound x). lra. Qed.

Lemma sample_linear_range t u v : 0 <= GL.sample_linear t u v <= 1.
Proof.
  unfold GL.sample_linear. cbv zeta.
  set (a := _ - IZR (Zfloor (u * _ - 0.5))).
  set (b := _ - IZR (Zfloor (v * _ - 0.5))).
  assert (Ha : 0 <= a <= 1) by apply floor_weight.
  assert (Hb : 0 <= b <= 1) by apply floor_weight.
  match goal with
  | |- 0 <= (1 - a) * (1 - b) * ?t00 + a * (1 - b) * ?t10
            + (1 - a) * b * ?t01 + a * b * ?t11 <= 1 =>
      replace ((1 - a) * (1 - b) * t00 + a * (1 - b) * t10
               + (1 - a) * b * t01 + a * b * t11)
        with ((1 - b) * ((1 - a) * t00 + a * t10)
              + b * ((1 - a) * t01 + a * t11)) by ring;
      apply lerp_range; [exact Hb | |]; apply lerp_range;
        solve [exact Ha | apply texel_range]
  end.
Qed.

Lemma texture_r_range m t u v : 0 <= GL.texture_r m t u v <= 1.
Proof.
  unfold GL.texture_r.
  destruct (GL.tex_min_filter t), m, (GL.tex_mag_filter t);
    solve [lra | apply sample_linear_range | apply texel_range].
Qed.

Lemma kernel121_range m t B bin : 0 <= FS.kernel121 m t B bin <= 1.
Proof.
  unfold FS.kernel121. cbv zeta.
  pose proof (texture_r_range m t ((bin + 0.5) / B) 0.5).
  pose proof (texture_r_range m t ((bin - 1 + 0.5) / B) 0.5).
  pose proof (texture_r_range m t ((bin + 1 + 0.5) / B) 0.5).
  lra.
Qed.

(** X15: whatever the texture and the bin coordinate, the smoothed sample
    lies in [0, 1] and [sampleSpectrum] in [0, 0.99]; it is 0 exactly when
    the smoothed sample is at most 0.01. *)
Theorem sampleSpectrum_range m t B bin :
  0 <= FS.sampleSpectrum m t B bin <= 0.99 /\
  0 <= FS.smoothSample m t B bin <= 1 /\
  (FS.sampleSpectrum m t B bin = 0 <-> FS.smoothSample m t B bin <= 0.01).
Proof.
  pose proof (kernel121_range m t B (FS.sampled_bin B bin)) as Hk.
  fold (FS.smoothSample m t B bin) in Hk.
  rewrite sampleSpectrum_gate.
  unfold Rmax. destruct (Rle_dec _ 0); repeat split; intros; lra.
Qed.

(** ** Between the bins *)

Lemma sample_linear_between t u (i : Z) f :
  GL.tex_height t = 1%Z ->
  0 <= f < 1 ->
  u * IZR (GL.tex_width t) - 0.5 = IZR i + f ->
  GL.sample_linear t u 0.5 =
  (1 - f) * GL.texel t (GL.wrap (GL.tex_wrap_s t) (GL.tex_width t) i) 0
  + f * GL.texel t (GL.wrap (GL.tex_wrap_s t) (GL.tex_width t) (i + 1)) 0.
Proof.
  intros Hh Hf Hx. unfold GL.sample_linear.
  rewrite Hh, Hx.
  replace (0.5 * 1 - 0.5) with (IZR 0) by lra.
  rewrite ZfloorZ, wrap_height_one.
  rewrite (Zfloor_eq i (IZR i + f)) by lra.
  lra.
Qed.

Lemma texture_r_between m t B (i : Z) f :
  spectrum_texture t B -> (0 < B)%Z -> 0 <= f < 1 ->
  GL.texture_r m t ((IZR i + f + 0.5) / IZR B) 0.5 =
  (1 - f) * amplitude t (GL.wrap GL.CLAMP_TO_EDGE B i)
  + f * amplitude t (GL.wrap GL.CLAMP_TO_EDGE B (i + 1)).
Proof.
  intros (Hw & Hh & Hs & _ & Hmin & Hmag & _) HB Hf.
  unfold GL.texture_r. rewrite Hmin, Hmag.
  assert (Hx : (IZR i + f + 0.5) / IZR B * IZR (GL.tex_width t) - 0.5
               = IZR i + f).
  { rewrite Hw. apply IZR_lt in HB. field_simplify; lra. }
  destruct m; rewrite (sample_linear_between t _ i f Hh Hf Hx), Hs, Hw;
    reflexivity.
Qed.

(** X16: between two integer bin coordinates the 1-2-1 kernel is the
    linear interpolation of its values at those coordinates (edge-clamped
    indices included): the sampled spectrum is continuous and piecewise
    linear in the bin coordinate. *)
Theorem kernel121_interpolates m t B (i : Z) f :
  spectrum_texture t B -> (0 < B)%Z -> 0 <= f < 1 ->
  FS.kernel121 m t (IZR B) (IZR i + f) =
  (1 - f) * FS.kernel121 m t (IZR B) (IZR i)
  + f * FS.kernel121 m t (IZR B) (IZR (i + 1)).
Proof.
  intros Ht HB Hf.
  rewrite !(kernel121_at_bin m t B _ Ht HB).
  unfold FS.kernel121. cbv zeta.
  replace (IZR i + f - 1 + 0.5) with (IZR (i - 1) + f + 0.5)
    by (rewrite minus_IZR; lra).
  replace (IZR i + f + 1 + 0.5) with (IZR (i + 1) + f + 0.5)
    by (rewrite plus_IZR; lra).
  rewrite !(texture_r_between m t B _ f Ht HB Hf).
  replace (i - 1 + 1)%Z with i by lia.
  replace (i + 1 - 1)%Z with i by lia.
  lra.
Qed.

Lemma kernel121_interpolates_witness :
  FS.kernel121 true (texture_of [x00; x40; xff; x00]) 4 (1 + 0.5) =
  (1 - 0.5) * FS.kernel121 true (texture_of [x00; x40; xff; x00]) 4 1
  + 0.5 * FS.kernel121 true (texture_of [x00; x40; xff; x00]) 4 2.
Proof.
  apply (kernel121_interpolates true (texture_of [x00; x40; xff; x00]) 4 1 0.5
           (texture_of_spectrum _)); [lia | lra].
Defined.





(** ** The remap and the angle *)

Lemma exp_chord k x :
  0 <= x <= 1 -> exp (x * k) <= (1 - x) + x * exp k.
Proof.
  intros [H0 H1].
  set (A := exp (x * k)).
  assert (HA : 0 < A) by apply exp_pos.
  assert (E1 : A * (1 - x * k) <= 1).
  { pose proof (exp_ineq1_le (- (x * k))) as H.
    apply (Rmult_le_compat_l A) in H; [|lra].
    replace (A * exp (- (x * k))) with 1 in H
      by (unfold A; rewrite <- exp_plus, Rplus_opp_r, exp_0; reflexivity).
    lra. }
  assert (E2 : A * (1 + (k - x * k)) <= exp k).
  { pose proof (exp_ineq1_le (k - x * k)) as H.
    apply (Rmult_le_compat_l A) in H; [|lra].
    replace (A * exp (k - x * k)) with (exp k) in H
      by (unfold A; rewrite <- exp_plus; f_equal; lra).
    lra. }
  apply (Rmult_le_compat_l (1 - x)) in E1; [|lra].
  apply (Rmult_le_compat_l x) in E2; [|lra].
  replace A with ((1 - x) * (A * (1 - x * k)) + x * (A * (1 + (k - x * k))))
    by ring.
  lra.
Qed.

(** X18: for k > 0 the remap stays within [0, 1] on [0, 1] and on or below
    the identity: an angle fraction x reaches at most the fraction x of the
    bins, which is what gives the low bins the larger share of the circle. *)
Theorem exp01_below_identity k x :
  0 < k -> 0 <= x <= 1 ->
  0 <= FS.exp01 x k <= x.
Proof.
  intros Hk Hx. unfold FS.exp01.
  pose proof (exp_gt_1 k Hk) as Hek.
  pose proof (exp_chord k x Hx) as Hc.
  assert (H1 : 1 <= exp (x * k)).
  { rewrite <- exp_0. destruct (Req_dec (x * k) 0) as [->|Hn]; [lra|].
    left. apply exp_increasing. destruct Hx as [Hx0 _].
    assert (0 <= x * k) by (apply Rmult_le_pos; lra). lra. }
  split.
  - apply Rmult_le_pos; [lra|]. left. apply Rinv_0_lt_compat. lra.
  - apply Rmult_le_reg_r with (exp k - 1); [lra|].
    unfold Rdiv. rewrite Rmult_assoc, Rinv_l by lra. lra.
Qed.

Lemma exp01_below_identity_witness : 0 <= FS.exp01 0.5 3 <= 0.5.
Proof. apply (exp01_below_identity 3 0.5); lra. Defined.


Lemma atan2_range y x : - Rtrigo1.PI <= GLSL.atan y x <= Rtrigo1.PI.
Proof.
  pose proof PI_RGT_0 as Hpi.
  pose proof (atan_bound (y / x)) as [Hl Hu].
  unfold GLSL.atan.
  destruct (Rlt_dec 0 x) as [Hx|Hx]; [lra|].
  destruct (Rlt_dec x 0) as [Hx'|Hx'].
  - assert (Hix : / x < 0) by (apply Rinv_lt_0_compat; exact Hx').
    destruct (Rle_dec 0 y) as [Hy|Hy].
    + assert (Hq : y / x <= 0).
      { unfold Rdiv. rewrite <- (Rmult_0_l (/ x)).
        apply Rmult_le_compat_neg_l with (r := / x) in Hy; [|lra].
        rewrite Rmult_0_r in Hy. rewrite Rmult_comm in Hy. lra. }
      assert (Ratan.atan (y / x) <= 0).
      { destruct Hq as [Hq|Hq].
        - left. rewrite <- atan_0. apply atan_increasing. exact Hq.
        - rewrite Hq, atan_0. lra. }
      lra.
    + assert (Hq : 0 < y / x).
      { unfold Rdiv. replace (y * / x) with ((- y) * (- / x)) by ring.
        apply Rmult_lt_0_compat; lra. }
      assert (0 < Ratan.atan (y / x)).
      { rewrite <- atan_0. apply atan_increasing. exact Hq. }
      lra.
  - destruct (Rlt_dec 0 y); [lra|]. destruct (Rlt_dec y 0); lra.
Qed.

Lemma exp01_lower_upper x :
  0 <= x < 1 -> 0 <= FS.exp01 x 3 < 1.
Proof.
  intros [H0 H1].
  split.
  - destruct (Req_dec x 0) as [->|Hn]; [rewrite exp01_0; lra|].
    rewrite <- (exp01_0 3). left. apply exp01_increasing; lra.
  - rewrite <- (exp01_1 3) by lra. apply exp01_increasing; lra.
Qed.

(** X19: for every pixel angle01 lies in [0, 1): the value 1 is never
    reached.  Hence, for more than one bin, the bin coordinate of [main]
    lies in [0, B-1) and the base (bin+1)/B of the tilt's power in (0, 1). *)
Theorem angle01_range A vUV B :
  0 <= FS.angle01_of A vUV < 1 /\
  (1 < B ->
   0 <= FS.bin_of B (FS.angle01_of A vUV) < B - 1 /\
   0 < (FS.bin_of B (FS.angle01_of A vUV) + 1) / B < 1).
Proof.
  assert (Ha : 0 <= FS.angle01_of A vUV < 1).
  { unfold FS.angle01_of. cbv zeta.
    pose proof (atan2_range (snd (FS.polarUV_of A vUV)) (fst (FS.polarUV_of A vUV)))
      as [Hl Hu].
    pose proof PI_4. pose proof PI_RGT_0.
    set (at2 := GLSL.atan _ _) in *.
    unfold FS.PI.
    destruct (Rlt_dec (at2 - 3.14159265 * 0.5) 0); split; lra. }
  split; [exact Ha|].
  intros HB.
  assert (Hb : 0 <= FS.bin_of B (FS.angle01_of A vUV) < B - 1).
  { unfold FS.bin_of.
    destruct (exp01_lower_upper (FS.angle01_of A vUV) Ha) as [H0 H1].
    split; [apply Rmult_le_pos; lra|]. 
    rewrite <- (Rmult_1_l (B - 1)) at 2.
    apply Rmult_lt_compat_r; lra. }
  split; [exact Hb|].
  split.
  - apply Rdiv_lt_0_compat; lra.
  - apply Rmult_lt_reg_r with B; [lra|].
    unfold Rdiv. rewrite Rmult_assoc, Rinv_l by lra. lra.
Qed.

Lemma angle01_range_witness :
  0 <= FS.bin_of 1024 (FS.angle01_of (800, 600) (0.5, 0.6)) < 1024 - 1.
Proof.
  destruct (angle01_range (800, 600) (0.5, 0.6) 1024) as (_ & H).
  apply H. lra.
Defined.


(** ** Rings, colour and the mask *)

Lemma smoothstep_eq_0 e0 e1 x :
  (x - e0) / (e1 - e0) <= 0 -> smoothstep e0 e1 x = 0.
Proof.
  intros H. unfold smoothstep. rewrite clamp_low by lra. lra.
Qed.

(** X20: the ring term lies in [0, 1]; it vanishes at and beyond radius 1
    (the fade) and wherever the fractional part of radius * count is at
    least 0.02 away from both ends of its period (the lines are thin); at
    radius 0 and below the fade is 1. *)
Theorem rangeRings_shape radius count :
  0 <= FS.rangeRings radius count <= 1 /\
  (1 <= radius -> FS.rangeRings radius count = 0) /\
  (0.02 <= fract (radius * count) <= 0.98 -> FS.rangeRings radius count = 0) /\
  (radius <= 0 -> FS.rangeRings radius count = FS.ring_of radius count).
Proof.
  pose proof (ring_of_range radius count) as Hr.
  pose proof (smoothstep_range 1 0 radius) as Hf.
  rewrite rangeRings_stages.
  split; [split; [apply Rmult_le_pos; lra | nra]|].
  split; [|split].
  - intros H. rewrite (smoothstep_eq_0 1 0 radius) by lra. lra.
  - intros [H0 H1]. unfold FS.ring_of. cbv zeta.
    rewrite smoothstep_eq_0; [lra|].
    unfold Rmin. destruct (Rle_dec _ _); lra.
  - intros H.
    assert (E : smoothstep 1 0 radius = 1) by (apply smoothstep_eq_1; lra).
    rewrite E. lra.
Qed.

Lemma rangeRings_shape_witness : FS.rangeRings 1 5 = 0.
Proof.
  destruct (rangeRings_shape 1 5) as (_ & H & _). apply H. lra.
Defined.


Lemma pow_nonneg x y : 0 <= pow x y.
Proof.
  unfold pow. destruct (Rlt_dec 0 x); [|lra].
  unfold Rpower. left. apply exp_pos.
Qed.

(** X21: inside the mask the glow and the rings only add light: no colour
    channel falls below the base colour (0.05, 0.08, 0.06), alpha is at
    least 1, and the glow raises green most and red least. *)
Theorem fragColor_at_least_base m t B A vUV :
  FS.radius_of A vUV <= 1 ->
  exists c,
    FS.main m t B A vUV = Some c /\
    0.05 <= r c /\ 0.08 <= g c /\ 0.06 <= b c /\ 1 <= a c /\
    r c - 0.05 <= b c - 0.06 <= g c - 0.08.
Proof.
  intros H. rewrite main_inside by exact H.
  eexists. split; [reflexivity|].
  pose proof (pow_nonneg
                (FS.sampleSpectrum m t B (FS.bin_of B (FS.angle01_of A vUV))
                 * mix 0.7 2 (FS.tilt_of B (FS.bin_of B (FS.angle01_of A vUV))))
                1.5) as Hg.
  fold (FS.gain_of m t B (FS.bin_of B (FS.angle01_of A vUV))) in Hg.
  pose proof (rangeRings_nonneg (FS.radius_of A vUV) 5) as Hr.
  unfold FS.fragColor_of, FS.glow_of, vec4_add_scalar.
  cbn [r g b a fst snd]. repeat split; lra.
Qed.

Lemma fragColor_at_least_base_witness :
  exists c,
    FS.main true (texture_of (repeat x00 1024)) 1024 (800, 600) (0.5, 0.6)
    = Some c /\ 0.05 <= r c.
Proof.
  destruct (fragColor_at_least_base true (texture_of (repeat x00 1024)) 1024
              (800, 600) (0.5, 0.6)) as (c & Hc & Hr & _).
  - rewrite radius_example. lra.
  - exists c. split; assumption.
Defined.






End ShaderExtras.
